(** * Flask-SuperAdmin: form generation and the mongoengine model admin

    A shallow embedding of

    - [flask_superadmin/model/backends/django/orm.py]: the field converter
      ([ModelConverterBase.convert], [AdminModelConverter]), [model_fields]
      and [model_form];
    - [flask_superadmin/model/backends/mongoengine/view.py]: [ModelAdmin]
      with [model_detect], [get_form], [get_objects], [get_pk],
      [delete_models] and [get_list];
    - [examples/auth/auth.py]: the [User] model, the validators of
      [LoginForm] and [RegistrationForm], and the body of [register_view].

    Python values are a small tagged union, exceptions are the [Raise] branch
    of an error monad, keyword-argument dictionaries are finite maps, the
    field dictionary is an association list in insertion order, and the
    document collection is threaded through the operations that change it. *)

From stdpp Require Import base option list strings gmap.
From Stdlib Require Import ZArith Ascii DecimalString.

Open Scope string_scope.
Open Scope list_scope.

(** ** Python values, exceptions, classes *)

Module Py.

(** The exceptions the embedded code can raise. *)
Inductive exn : Type :=
| TypeError
| ValueError
| NameError
| AttributeError
| InvalidId.

(** A computation either returns a value or raises. *)
Inductive result (A : Type) : Type :=
| Ok (a : A)
| Raise (e : exn).

Arguments Ok {A} a.
Arguments Raise {A} e.

#[global] Instance result_ret : MRet result := fun A a => Ok a.

#[global] Instance result_bind : MBind result := fun A B f m =>
  match m with
  | Ok a => f a
  | Raise e => Raise e
  end.

#[global] Instance result_fmap : FMap result := fun A B f m =>
  match m with
  | Ok a => Ok (f a)
  | Raise e => Raise e
  end.

(** [list(g(x) for x in xs)]: the first exception aborts the whole list. *)
Fixpoint collect {A B : Type} (g : A -> result B) (xs : list A) : result (list B) :=
  match xs with
  | [] => Ok []
  | x :: xs' => y ← g x; ys ← collect g xs'; Ok (y :: ys)
  end.

(** The values that reach the embedded code. *)
Inductive pyvalue : Type :=
| PyNone
| PyBool (b : bool)
| PyInt (n : Z)
| PyStr (s : string).

(** [a == b] with equal hashes, which is what a dictionary lookup tests:
    [True == 1] and [False == 0], a string equals only the same string and
    [None] only itself. *)
Definition py_eqb (a b : pyvalue) : bool :=
  match a, b with
  | PyNone, PyNone => true
  | PyStr s, PyStr t => String.eqb s t
  | PyBool x, PyBool y => Bool.eqb x y
  | PyInt x, PyInt y => Z.eqb x y
  | PyBool x, PyInt y => Z.eqb (Z.b2z x) y
  | PyInt x, PyBool y => Z.eqb x (Z.b2z y)
  | _, _ => false
  end.

(** A dictionary literal with arbitrary keys, looked up with [py_eqb]. *)
Fixpoint py_dict_get {V : Type} (d : list (pyvalue * V)) (k : pyvalue) : option V :=
  match d with
  | [] => None
  | (k', v) :: d' => if py_eqb k k' then Some v else py_dict_get d' k
  end.

(** [d[k] = v] on a dictionary with string keys that remembers the order in
    which its keys were first set. *)
Fixpoint dict_set {V : Type} (k : string) (v : V) (d : list (string * V))
  : list (string * V) :=
  match d with
  | [] => [(k, v)]
  | (k', v') :: d' =>
      if decide (k = k') then (k, v) :: d' else (k', v') :: dict_set k v d'
  end.

(** Truth value of an optional list: [None] and the empty list are false. *)
Definition truthy {A : Type} (l : option (list A)) : bool :=
  match l with
  | Some (_ :: _) => true
  | _ => false
  end.

(** Truth value of an optional string: [None] and [''] are false. *)
Definition truthy_str (s : option string) : bool :=
  match s with
  | Some (String _ _) => true
  | _ => false
  end.

(** *** [int(value)] *)

Definition is_space (c : ascii) : bool :=
  let n := N_of_ascii c in
  (N.eqb n 32 || (N.leb 9 n && N.leb n 13))%N.

Definition digit_of (c : ascii) : option Z :=
  let n := N_of_ascii c in
  if (N.leb 48 n && N.leb n 57)%N then Some (Z.of_N n - 48)%Z else None.

Fixpoint lstrip (s : list ascii) : list ascii :=
  match s with
  | c :: s' => if is_space c then lstrip s' else s
  | [] => []
  end.

Definition strip (s : list ascii) : list ascii :=
  rev (lstrip (rev (lstrip s))).

Fixpoint digits_from (acc : Z) (s : list ascii) : option Z :=
  match s with
  | [] => Some acc
  | c :: s' =>
      match digit_of c with
      | Some d => digits_from (10 * acc + d)%Z s'
      | None => None
      end
  end.

(** One or more decimal digits. *)
Definition digits (s : list ascii) : option Z :=
  match s with
  | [] => None
  | _ :: _ => digits_from 0%Z s
  end.

(** A base-10 integer literal as [int] reads it from a string: blanks around
    it, an optional sign, then decimal digits. *)
Definition int_literal (s : string) : option Z :=
  match strip (String.list_ascii_of_string s) with
  | [] => None
  | c :: r =>
      if Ascii.eqb c "-" then Z.opp <$> digits r
      else if Ascii.eqb c "+" then digits r
      else digits (c :: r)
  end.

(** [int(value)]: [TypeError] on [None], [ValueError] on a string that is
    no integer literal. *)
Definition py_int (v : pyvalue) : result Z :=
  match v with
  | PyNone => Raise TypeError
  | PyBool b => Ok (Z.b2z b)
  | PyInt n => Ok n
  | PyStr s =>
      match int_literal s with
      | Some n => Ok n
      | None => Raise ValueError
      end
  end.

(** [bool(n)] of an integer. *)
Definition bool_of_int (n : Z) : bool := negb (Z.eqb n 0).

(** *** Classes and [issubclass] *)

(** A class with its base classes; a class is identified by its qualified
    name. *)
#[local] Unset Elimination Schemes.
Inductive pyclass : Type :=
| Class (cname : string) (bases : list pyclass).
#[local] Set Elimination Schemes.

(** Induction over a class with the property in hand for all its bases. *)
Section pyclass_induction.
Variable P : pyclass → Prop.
Hypothesis Hclass : ∀ n bs, Forall P bs → P (Class n bs).

Fixpoint pyclass_bases_ind (c : pyclass) : P c :=
  match c with
  | Class n bs =>
      Hclass n bs
        ((fix go (l : list pyclass) : Forall P l :=
            match l with
            | [] => List.Forall_nil P
            | b :: l' => List.Forall_cons P b l' (pyclass_bases_ind b) (go l')
            end) bs)
  end.
End pyclass_induction.

Definition class_name (c : pyclass) : string :=
  match c with Class n _ => n end.

Definition class_bases (c : pyclass) : list pyclass :=
  match c with Class _ bs => bs end.

(** [issubclass(c, d)] for a class [c]: [c] is [d], or one of its bases is a
    subclass of [d]. *)
Fixpoint issubclass (c d : pyclass) : bool :=
  match c with
  | Class n bs =>
      String.eqb n (class_name d) || existsb (fun b => issubclass b d) bs
  end.

(** The same relation, inductively: the class hierarchy below [d]. *)
Inductive in_hierarchy (d : pyclass) : pyclass -> Prop :=
| hierarchy_root c : class_name c = class_name d -> in_hierarchy d c
| hierarchy_base c b :
    b ∈ class_bases c -> in_hierarchy d b -> in_hierarchy d c.

(** An object handed to a function that expects a class. *)
Inductive pyobject : Type :=
| ObjClass (c : pyclass)
| ObjValue (v : pyvalue).

End Py.

Export Py.

(** ** [django/orm.py]: from model fields to form fields *)

Module Orm.

(** *** The data the converter reads and builds *)

(** The entries of a field's [validators] list. *)
Inductive validator : Type :=
| Optional
| Length (max : Z)
| email
| ip_address
| url
| CallerValidator (v : string).

(** The entries of a field's [filters] list: the two closures the converter
    defines ([obj.time()] and [obj.date()], each returning [obj] itself when
    the attribute is missing) and whatever the caller supplies. *)
Inductive value_filter : Type :=
| time_only
| date_only
| CallerFilter (f : string).

Inductive widget : Type :=
| ChosenSelectWidget
| DateTimePickerWidget
| DatePickerWidget
| CallerWidget (w : string).

(** The form field classes the converter instantiates. *)
Inductive form_kind : Type :=
| IntegerField
| DecimalField
| FileField
| BooleanField
| StringField
| TextAreaField
| SelectField
| ModelSelectField
| DateTimeField
| DateField
| CallerField (cls : string).

(** A choice set: pairs of a stored value and its label. *)
Abbreviation choice_list := (list (pyvalue * string)).

(** The value of one keyword argument. *)
Inductive kwval : Type :=
| KValue (v : pyvalue)
| KChoices (c : choice_list)
| KWidget (w : widget)
| KModel (m : string)
| KCoerce (c : pyvalue -> result pyvalue).

(** A model field as the converter sees it: [ftype] is
    [type(field).__name__], [rel_to] is [field.rel.to] where the field has
    one. *)
Record native_field : Type := {
  name : string;
  ftype : string;
  verbose_name : pyvalue;
  help_text : pyvalue;
  default : pyvalue;
  blank : bool;
  max_length : option Z;
  choices : choice_list;
  rel_to : option string
}.

(** A model class: [_meta.object_name], [_meta.fields] in declaration
    order, and the name of [_meta.pk]. *)
Record native_model : Type := {
  object_name : string;
  fields : list native_field;
  pk_name : string
}.

(** The [kwargs] dictionary of [convert]. Its [validators] and [filters]
    entries, the two lists the converters append to, are kept as typed
    lists; every other keyword lives in [keywords]. *)
Record kwargs : Type := {
  validators : list validator;
  filters : list value_filter;
  keywords : gmap string kwval
}.

(** One field's entry of the caller's [field_args]: the keyword arguments
    that replace the converter's own. A caller's [validators] and [filters]
    are the first two fields; [o_keywords] holds every other keyword. *)
Record overrides : Type := {
  o_validators : option (list validator);
  o_filters : option (list value_filter);
  o_keywords : gmap string kwval
}.

(** [kwargs.update(field_args)]. After it the dictionary shares the caller's
    lists, so the appends that follow also grow the caller's own
    [validators]; the field built from [kwargs] holds the grown list, and
    nothing below reads a caller's list once [convert] has returned. *)
Definition kwargs_update (kw : kwargs) (o : overrides) : kwargs :=
  {| validators := from_option (fun l => l) (validators kw) (o_validators o);
     filters := from_option (fun l => l) (filters kw) (o_filters o);
     keywords := o_keywords o ∪ keywords kw |}.

(** [kwargs['validators'].append(v)] *)
Definition append_validator (v : validator) (kw : kwargs) : kwargs :=
  {| validators := validators kw ++ [v];
     filters := filters kw;
     keywords := keywords kw |}.

(** [kwargs['filters'].append(f)] *)
Definition append_filter (f : value_filter) (kw : kwargs) : kwargs :=
  {| validators := validators kw;
     filters := filters kw ++ [f];
     keywords := keywords kw |}.

(** [kwargs[k] = v] *)
Definition set_keyword (k : string) (v : kwval) (kw : kwargs) : kwargs :=
  {| validators := validators kw;
     filters := filters kw;
     keywords := <[k := v]> (keywords kw) |}.

(** The form field a constructor call leaves behind: its class and the
    keyword arguments it was called with. *)
Record form_field : Type := {
  field_class : form_kind;
  field_validators : list validator;
  field_filters : list value_filter;
  field_kwargs : gmap string kwval
}.

(** [cls(k1=v1, ..., **kwargs)]: Python refuses the call with [TypeError]
    when [kwargs] holds one of the keywords written out in the call. *)
Definition construct (cls : form_kind) (explicit : list (string * kwval))
    (kw : kwargs) : result form_field :=
  if existsb (fun p => bool_decide (is_Some (keywords kw !! p.1))) explicit
  then Raise TypeError
  else Ok {| field_class := cls;
             field_validators := validators kw;
             field_filters := filters kw;
             field_kwargs := list_to_map explicit ∪ keywords kw |}.

(** A converter function: [(model, field, kwargs) -> field or None]. *)
Abbreviation converter_fn :=
  (native_model -> native_field -> kwargs -> result (option form_field)).

(** *** [ModelConverterBase] *)

(** An instance holds [self.converters]; [conv_method] is
    [getattr(self, 'conv_' + ftype, None)], the methods of its class. *)
Record ModelConverterBase : Type := {
  converters : gmap string converter_fn;
  conv_method : string -> option converter_fn
}.

Definition convert (self : ModelConverterBase) (model : native_model)
    (field : native_field) (field_args : option overrides)
  : result (option form_field) :=
  let kwargs :=
    {| validators := [];
       filters := [];
       keywords := {[ "label" := KValue (verbose_name field);
                      "description" := KValue (help_text field);
                      "default" := KValue (default field) ]} |} in
  let kwargs :=
    match field_args with
    | Some o => kwargs_update kwargs o
    | None => kwargs
    end in
  let kwargs := if blank field then append_validator Optional kwargs else kwargs in
  let kwargs :=
    match max_length field with
    | Some n => if (0 <? n)%Z then append_validator (Length n) kwargs else kwargs
    | None => kwargs
    end in
  let ftype := ftype field in
  match choices field with
  | _ :: _ =>
      let kwargs := set_keyword "choices" (KChoices (choices field)) kwargs in
      Some <$> construct SelectField [("widget", KWidget ChosenSelectWidget)] kwargs
  | [] =>
      match converters self !! ftype with
      | Some converter => converter model field kwargs
      | None =>
          match conv_method self ftype with
          | Some converter => converter model field kwargs
          | None => Ok None
          end
      end
  end.

(** The keyword arguments [convert] has put together when it chooses a
    constructor: its first four steps. *)
Definition convert_kwargs (field : native_field) (field_args : option overrides)
  : kwargs :=
  let kwargs :=
    {| validators := [];
       filters := [];
       keywords := {[ "label" := KValue (verbose_name field);
                      "description" := KValue (help_text field);
                      "default" := KValue (default field) ]} |} in
  let kwargs :=
    match field_args with
    | Some o => kwargs_update kwargs o
    | None => kwargs
    end in
  let kwargs := if blank field then append_validator Optional kwargs else kwargs in
  match max_length field with
  | Some n => if (0 <? n)%Z then append_validator (Length n) kwargs else kwargs
  | None => kwargs
  end.

(** A converter function that neither adds nor drops [Optional]. *)
Definition keeps_optional (c : converter_fn) : Prop :=
  ∀ model field kw d,
    c model field kw = Ok (Some d) →
    Optional ∈ field_validators d ↔ Optional ∈ validators kw.

(** *** [AdminModelConverter] *)

Section AdminModelConverter.

(** [STATE_CHOICES] as the import inside [conv_USStateField] finds it, [None]
    when the import fails. *)
Variable localflavor_STATE_CHOICES : option choice_list.

Definition DEFAULT_SIMPLE_CONVERSIONS : list (form_kind * list string) :=
  [ (IntegerField, ["AutoField"; "IntegerField"; "SmallIntegerField";
                    "PositiveIntegerField"; "PositiveSmallIntegerField"]);
    (DecimalField, ["DecimalField"; "FloatField"]);
    (FileField, ["FileField"; "FilePathField"; "ImageField"]);
    (BooleanField, ["BooleanField"]);
    (StringField, ["CharField"; "PhoneNumberField"; "SlugField"]);
    (TextAreaField, ["StringField"; "XMLField"]) ].

Definition make_simple_converter (field_type : form_kind) : converter_fn :=
  fun model field kwargs => Some <$> construct field_type [] kwargs.

Definition conv_ForeignKey : converter_fn := fun model field kwargs =>
  match rel_to field with
  | Some to =>
      Some <$> construct ModelSelectField
        [("widget", KWidget ChosenSelectWidget); ("model", KModel to)] kwargs
  | None => Raise AttributeError
  end.

Definition conv_TimeField : converter_fn := fun model field kwargs =>
  let kwargs := append_filter time_only kwargs in
  Some <$> construct DateTimeField
    [("widget", KWidget DateTimePickerWidget);
     ("format", KValue (PyStr "%H:%M:%S"))] kwargs.

Definition conv_DateTimeField : converter_fn := fun model field kwargs =>
  let kwargs := append_filter time_only kwargs in
  Some <$> construct DateTimeField
    [("widget", KWidget DateTimePickerWidget);
     ("format", KValue (PyStr "%H:%M:%S"))] kwargs.

Definition conv_DateField : converter_fn := fun model field kwargs =>
  let kwargs := append_filter date_only kwargs in
  Some <$> construct DateField [("widget", KWidget DatePickerWidget)] kwargs.

Definition conv_EmailField : converter_fn := fun model field kwargs =>
  let kwargs := append_validator email kwargs in
  Some <$> construct StringField [] kwargs.

Definition conv_IPAddressField : converter_fn := fun model field kwargs =>
  let kwargs := append_validator ip_address kwargs in
  Some <$> construct StringField [] kwargs.

Definition conv_URLField : converter_fn := fun model field kwargs =>
  let kwargs := append_validator url kwargs in
  Some <$> construct StringField [] kwargs.

Definition conv_USStateField : converter_fn := fun model field kwargs =>
  let STATE_CHOICES := from_option (fun c => c) [] localflavor_STATE_CHOICES in
  Some <$> construct SelectField [("choices", KChoices STATE_CHOICES)] kwargs.

Definition coerce_nullbool (value : pyvalue) : result pyvalue :=
  let d := [ (PyStr "None", PyNone); (PyNone, PyNone);
             (PyStr "True", PyBool true); (PyStr "False", PyBool false) ] in
  match py_dict_get d value with
  | Some v => Ok v
  | None => n ← py_int value; Ok (PyBool (bool_of_int n))
  end.

Definition conv_NullBooleanField : converter_fn := fun model field kwargs =>
  let choices := [ (PyNone, "Unknown"); (PyBool true, "Yes"); (PyBool false, "No") ] in
  Some <$> construct SelectField
    [("choices", KChoices choices); ("coerce", KCoerce coerce_nullbool)] kwargs.

(** [getattr(self, 'conv_%s' % ftype, None)] on an [AdminModelConverter]. *)
Definition AdminModelConverter_method (ftype : string) : option converter_fn :=
  if decide (ftype = "ForeignKey") then Some conv_ForeignKey
  else if decide (ftype = "TimeField") then Some conv_TimeField
  else if decide (ftype = "DateTimeField") then Some conv_DateTimeField
  else if decide (ftype = "DateField") then Some conv_DateField
  else if decide (ftype = "EmailField") then Some conv_EmailField
  else if decide (ftype = "IPAddressField") then Some conv_IPAddressField
  else if decide (ftype = "URLField") then Some conv_URLField
  else if decide (ftype = "USStateField") then Some conv_USStateField
  else if decide (ftype = "NullBooleanField") then Some conv_NullBooleanField
  else None.

(** The loops of [__init__]: every name of every group is bound to the
    group's simple converter, a later binding replacing an earlier one. *)
Definition simple_converters (simple_conversions : list (form_kind * list string))
  : gmap string converter_fn :=
  foldl (fun converters group =>
           let converter := make_simple_converter group.1 in
           foldl (fun converters name => <[name := converter]> converters)
                 converters group.2)
        ∅ simple_conversions.

(** [AdminModelConverter(extra_converters, simple_conversions)] *)
Definition AdminModelConverter
    (extra_converters : option (gmap string converter_fn))
    (simple_conversions : option (list (form_kind * list string)))
  : ModelConverterBase :=
  let simple_conversions :=
    from_option (fun s => s) DEFAULT_SIMPLE_CONVERSIONS simple_conversions in
  let converters := simple_converters simple_conversions in
  let converters :=
    match extra_converters with
    | Some extra => extra ∪ converters
    | None => converters
    end in
  {| converters := converters; conv_method := AdminModelConverter_method |}.

End AdminModelConverter.

(** *** [model_fields] and [model_form] *)

(** The field dictionary, in the order its entries were created. *)
Abbreviation field_mapping := (list (string * form_field)).

(** The selection of [model_fields]: an include list wins over an exclude
    list, and either is ignored when empty. *)
Definition select_fields (model : native_model)
    (fields exclude : option (list string)) : list (string * native_field) :=
  let model_fields := (fun f => (name f, f)) <$> Orm.fields model in
  if truthy fields then
    filter (fun x => x.1 ∈ from_option (fun l => l) [] fields) model_fields
  else if truthy exclude then
    filter (fun x => x.1 ∉ from_option (fun l => l) [] exclude) model_fields
  else model_fields.

(** The loop of [model_fields] over the selected fields. *)
Fixpoint convert_fields (converter : ModelConverterBase) (model : native_model)
    (field_args : gmap string overrides)
    (model_fields : list (string * native_field)) (field_dict : field_mapping)
  : result field_mapping :=
  match model_fields with
  | [] => Ok field_dict
  | (name, model_field) :: rest =>
      field ← convert converter model model_field (field_args !! name);
      convert_fields converter model field_args rest
        match field with
        | Some field => dict_set name field field_dict
        | None => field_dict
        end
  end.

(** Whether the loop adds an entry for a selected field: [convert] returns
    a form field for it under the caller's [field_args]. *)
Definition yields_field (converter : ModelConverterBase) (model : native_model)
    (field_args : gmap string overrides) (x : string * native_field) : bool :=
  match convert converter model x.2 (field_args !! x.1) with
  | Ok (Some _) => true
  | _ => false
  end.

Definition converts (converter : ModelConverterBase) (model : native_model)
    (field_args : option (gmap string overrides)) (field : native_field) : bool :=
  yields_field converter model (from_option (fun a => a) ∅ field_args)
    (name field, field).

(** [converter or ModelConverter()] names a class the module neither
    defines nor imports: without a converter the call ends in [NameError]. *)
Definition model_fields (model : native_model)
    (fields readonly_fields exclude : option (list string))
    (field_args : option (gmap string overrides))
    (converter : option ModelConverterBase) : result field_mapping :=
  converter ←
    match converter with
    | Some c => Ok c
    | None => Raise NameError
    end;
  let field_args := from_option (fun a => a) ∅ field_args in
  convert_fields converter model field_args
    (select_fields model fields exclude) [].

(** The class [type(name, (base_class,), field_dict)] builds. *)
Record form_type : Type := {
  type_name : string;
  type_bases : list pyclass;
  type_dict : field_mapping
}.

(** The keys of a form's field mapping, in creation order. *)
Definition field_names (form : form_type) : list string := (type_dict form).*1.

Definition model_form (model : native_model) (base_class : pyclass)
    (fields readonly_fields exclude : option (list string))
    (field_args : option (gmap string overrides))
    (converter : option ModelConverterBase) : result form_type :=
  let exclude :=
    (if truthy exclude then from_option (fun l => l) [] exclude else [])
      ++ ["id"] in
  field_dict ←
    model_fields model fields readonly_fields (Some exclude) field_args converter;
  Ok {| type_name := object_name model +:+ "Form";
        type_bases := [base_class];
        type_dict := field_dict |}.

End Orm.

Export Orm.

(** ** [mongoengine/view.py]: the model admin of the document backend *)

Module View.

(** [view.py] takes [model_form] and [AdminModelConverter] from the [orm]
    module it imports, which is not among the sources; [get_form] calls them
    through this record. The arguments of [orm_model_form] are the model,
    the base class and the keywords [only], [exclude], [field_args] and
    [converter] of the call. *)
Record orm_module : Type := {
  orm_model_form :
    native_model -> pyclass -> option (list string) -> option (list string) ->
    option (gmap string overrides) -> option ModelConverterBase ->
    result form_type;
  orm_AdminModelConverter : ModelConverterBase
}.

Definition object_class : pyclass := Class "object" [].

Definition BaseForm : pyclass :=
  Class "flask_superadmin.form.BaseForm" [Class "flask_wtf.Form" [object_class]].

(** [mongoengine.Document] *)
Definition Document : pyclass :=
  Class "mongoengine.Document"
    [Class "mongoengine.base.BaseDocument" [object_class]].

(** [issubclass(model, mongoengine.Document)]: [issubclass] raises
    [TypeError] when its first argument is not a class. *)
Definition model_detect (model : pyobject) : result bool :=
  match model with
  | ObjClass c => Ok (issubclass c Document)
  | ObjValue _ => Raise TypeError
  end.

Section Backend.

(** The storage side: object identifiers, [bson]'s [ObjectId(pk)] (which
    raises [InvalidId] on a string that is no identifier) and the order
    [order_by(key)] puts documents in. *)
Context {oid : Type} `{EqDecision oid}.
Variable ObjectId : string -> result oid.

Record document : Type := {
  doc_id : oid;
  doc_data : gmap string pyvalue
}.

Variable ordered_by : string -> list document -> list document.

(** *** Query sets *)

(** A query over a collection: what [order_by], [skip] and [limit] have
    recorded so far. Nothing is fetched until the rows are asked for. *)
Record QuerySet : Type := {
    q_collection : list document;
    q_ordering : option string;
    q_skip : option nat;
    q_limit : option nat
}.

(** [model.objects]: a fresh query over the whole collection. *)
Definition objects (collection : list document) : QuerySet :=
  {| q_collection := collection; q_ordering := None;
     q_skip := None; q_limit := None |}.

Definition order_by (key : string) (q : QuerySet) : QuerySet :=
  {| q_collection := q_collection q; q_ordering := Some key;
     q_skip := q_skip q; q_limit := q_limit q |}.

Definition skip (n : nat) (q : QuerySet) : QuerySet :=
  {| q_collection := q_collection q; q_ordering := q_ordering q;
     q_skip := Some n; q_limit := q_limit q |}.

Definition limit (n : nat) (q : QuerySet) : QuerySet :=
  {| q_collection := q_collection q; q_ordering := q_ordering q;
     q_skip := q_skip q; q_limit := Some n |}.

(** [query.all()] returns the query itself. *)
Definition all (q : QuerySet) : QuerySet := q.

(** The rows a query yields when it is iterated: ordered, then skipped, then
    limited. A limit of 0 is no limit, as for the cursor underneath. *)
Definition rows (q : QuerySet) : list document :=
  let ordered :=
    match q_ordering q with
    | Some key => ordered_by key (q_collection q)
    | None => q_collection q
    end in
  let skipped := from_option (fun n => drop n ordered) ordered (q_skip q) in
  match q_limit q with
  | Some (S n) => take (S n) skipped
  | Some 0 | None => skipped
  end.

(** [query.count()] counts what the query yields, its skip and limit
    applied; on a fresh query that is the whole collection. *)
Definition count (q : QuerySet) : nat := length (rows q).

(** [objects.in_bulk(ids)]: a dictionary from each identifier that has a
    document to that document. *)
Definition in_bulk (ids : list oid) (collection : list document)
  : list (oid * document) :=
  (fun d => (doc_id d, d)) <$> filter (fun d => doc_id d ∈ ids) collection.

(** [obj.delete()] *)
Definition delete_document (obj : document) (collection : list document)
  : list document :=
  filter (fun d => doc_id d ≠ doc_id obj) collection.

(** *** [ModelAdmin] *)

(** The attributes of an admin instance that the methods read; [allow_pk]
    is what a subclass makes the method of that name return. *)
Record ModelAdmin : Type := {
  model : native_model;
  only : option (list string);
  exclude : option (list string);
  field_args : option (gmap string overrides);
  list_display : list string;
  sort : option string * bool;
  page : option nat;
  list_per_page : nat;
  allow_pk : bool
}.

Variable orm : orm_module.


Definition get_objects (pks : list string) (collection : list document)
  : result (list document) :=
  ids ← collect ObjectId pks;
  Ok ((in_bulk ids collection).*2).

(** The collection goes in and comes out: each fetched object is deleted in
    turn. *)
Definition delete_models (pks : list string) (collection : list document)
  : result (bool * list document) :=
  objs ← get_objects pks collection;
  Ok (true, foldl (fun collection obj => delete_document obj collection) collection objs).

Definition get_list (self : ModelAdmin) (collection : list document)
    (execute : bool) : nat * QuerySet :=
  let query := objects collection in
  let cols := list_display self in
  let count := count query in
  let '(sort_column, sort_desc) := sort self in
  let page := page self in
  let query :=
    if truthy_str sort_column
    then order_by ((if sort_desc : bool then "-" else "")
                     +:+ from_option (fun s => s) "" sort_column) query
    else query in
  let query :=
    match page with
    | Some page => skip (page * list_per_page self) query
    | None => query
    end in
  let query := limit (list_per_page self) query in
  let query := if execute then all query else query in
  (count, query).

(** The matching rows in the order [get_list] asks for, before its skip and
    limit. *)
Definition listed_rows (self : ModelAdmin) (collection : list document)
  : list document :=
  match sort self with
  | (Some (String c s), sort_desc) =>
      ordered_by ((if sort_desc : bool then "-" else "") +:+ String c s) collection
  | _ => collection
  end.

End Backend.

End View.

Export View.

(** ** The converter table as a function of the kind *)

Module OrmTables.

(** The field class the table of simple conversions binds a kind name to:
    that of the last group that lists the name. *)
Fixpoint simple_kind (simple_conversions : list (form_kind * list string))
    (t : string) : option form_kind :=
  match simple_conversions with
  | [] => None
  | (k, names) :: rest =>
      match simple_kind rest t with
      | Some k' => Some k'
      | None => if decide (t ∈ names) then Some k else None
      end
  end.

(** The keywords that the constructor call chosen for a field writes out
    next to [**kwargs], read off [convert] and the [conv_] methods. *)
Definition explicit_keywords (simple_conversions : list (form_kind * list string))
    (field : native_field) : list string :=
  match choices field with
  | _ :: _ => ["widget"]
  | [] =>
      match simple_kind simple_conversions (ftype field) with
      | Some _ => []
      | None =>
          if decide (ftype field = "ForeignKey") then ["widget"; "model"]
          else if decide (ftype field = "TimeField") then ["widget"; "format"]
          else if decide (ftype field = "DateTimeField") then ["widget"; "format"]
          else if decide (ftype field = "DateField") then ["widget"]
          else if decide (ftype field = "USStateField") then ["choices"]
          else if decide (ftype field = "NullBooleanField") then ["choices"; "coerce"]
          else []
      end
  end.

End OrmTables.

Export OrmTables.

(** ** What the value filters and [str] do *)

Module Values.

(** [str(v)] for the values a choice can hold. *)
Definition py_str (v : pyvalue) : string :=
  match v with
  | PyNone => "None"
  | PyBool true => "True"
  | PyBool false => "False"
  | PyInt n => NilZero.string_of_int (Z.to_int n)
  | PyStr s => s
  end.

Record calendar_date : Type := { year : Z; month : Z; day : Z }.

Record clock_time : Type := { hour : Z; minute : Z; second : Z }.

(** A value bound to a date or time field: a [datetime] (which has the
    methods [date()] and [time()]), a [date] or a [time] (which have
    neither), or any other value. *)
Inductive bound_value : Type :=
| DatetimeValue (d : calendar_date) (t : clock_time)
| DateValue (d : calendar_date)
| TimeValue (t : clock_time)
| PlainValue (v : pyvalue).

(** The closure [time_only] of [conv_TimeField] and [conv_DateTimeField]:
    [obj.time()], or [obj] when it has no such attribute. *)
Definition run_time_only (obj : bound_value) : bound_value :=
  match obj with
  | DatetimeValue _ t => TimeValue t
  | _ => obj
  end.

(** The closure [time_only] of [conv_DateField]: [obj.date()], or [obj]
    when it has no such attribute. *)
Definition run_date_only (obj : bound_value) : bound_value :=
  match obj with
  | DatetimeValue d _ => DateValue d
  | _ => obj
  end.

(** What a filter of the converter does to a bound value; a caller's filter
    is not known. *)
Definition run_filter (f : value_filter) : option (bound_value -> bound_value) :=
  match f with
  | time_only => Some run_time_only
  | date_only => Some run_date_only
  | CallerFilter _ => None
  end.

End Values.

Export Values.

(** ** More of [view.py] *)

Module ViewKeys.

Section Keys.
Context {oid : Type}.

(** [str] of an object identifier, as [bson] renders it. *)
Variable oid_str : oid -> string.

(** [str(instance.id)] *)
Definition get_pk (instance : @document oid) : string :=
  oid_str (doc_id instance).

End Keys.

(** The admin as the list view leaves it when page [p] is requested. *)
Definition at_page (self : ModelAdmin) (p : nat) : ModelAdmin :=
  {| model := model self; only := only self; exclude := exclude self;
     field_args := field_args self; list_display := list_display self;
     sort := sort self; page := Some p; list_per_page := list_per_page self;
     allow_pk := allow_pk self |}.

(** [c] is [b] or has [b] among the bases of its bases, at any depth. *)
Inductive derives_from (b : pyclass) : pyclass -> Prop :=
| derives_self : derives_from b b
| derives_base c x : x ∈ class_bases c -> derives_from b x -> derives_from b c.

End ViewKeys.

Export ViewKeys.

(** ** [examples/auth/auth.py]: users, login and registration *)

Module Auth.

(** A row of the [User] table; [id] is [None] until the row is committed. *)
Record User : Type := {
  id : option Z;
  login : string;
  email : string;
  password : string
}.

Definition is_authenticated (self : User) : bool := true.

Definition is_active (self : User) : bool := true.

Definition is_anonymous (self : User) : bool := false.

Definition get_id (self : User) : option Z := id self.

(** [User.__unicode__] reads [self.username], an attribute the class does
    not have. *)
Definition User_unicode (self : User) : result string := Raise AttributeError.

(** The outcome of an inline validator: it returns, or raises
    [ValidationError] with a message. *)
Inductive validation : Type :=
| Valid
| ValidationError (message : string).

(** The data of the fields of a bound [LoginForm]. *)
Record LoginForm : Type := {
  login_data : string;
  password_data : string
}.

(** [db.session.query(User).filter_by(login=...)]: the rows with that
    login, in table order. *)
Definition filter_by_login (l : string) (users : list User) : list User :=
  filter (fun u => login u = l) users.

(** [LoginForm.get_user]: [.first()] of the rows with the form's login. *)
Definition get_user (users : list User) (self : LoginForm) : option User :=
  head (filter_by_login (login_data self) users).

Definition LoginForm_validate_login (users : list User) (self : LoginForm)
  : validation :=
  match get_user users self with
  | None => ValidationError "Invalid user"
  | Some user =>
      if decide (password user ≠ password_data self)
      then ValidationError "Invalid password"
      else Valid
  end.

(** The data of the fields of a bound [RegistrationForm]. *)
Record RegistrationForm : Type := {
  reg_login : string;
  reg_email : string;
  reg_password : string
}.

Definition RegistrationForm_validate_login (users : list User)
    (self : RegistrationForm) : validation :=
  if decide (0 < length (filter_by_login (reg_login self) users))
  then ValidationError "Duplicate username"
  else Valid.

(** [form.populate_obj(user)] on a fresh [User()]. *)
Definition populate_obj (self : RegistrationForm) : User :=
  {| id := None; login := reg_login self; email := reg_email self;
     password := reg_password self |}.

(** The outcome of [db.session.commit()] after [add(user)]: the table with
    the new row, or [IntegrityError] when the login, a unique column, is
    taken. *)
Inductive commit_result : Type :=
| Committed (users : list User)
| IntegrityError.

Section Database.

(** The primary key the database gives a new row. *)
Variable next_id : list User -> Z.

Definition add_and_commit (users : list User) (user : User) : commit_result :=
  if decide (login user ∈ login <$> users) then IntegrityError
  else Committed (users ++ [ {| id := Some (next_id users); login := login user;
                                email := email user; password := password user |} ]).

(** The body of [register_view] once the form has validated: build the
    user from the form, add it, commit. *)
Definition register_user (users : list User) (form : RegistrationForm)
  : commit_result :=
  let user := populate_obj form in
  add_and_commit users user.

End Database.

End Auth.

(** ** Sample models and admins *)

Module Samples.

Definition plain_field (n t : string) : native_field :=
  {| name := n; ftype := t; verbose_name := PyStr n; help_text := PyStr "";
     default := PyNone; blank := false; max_length := None; choices := [];
     rel_to := None |}.

Definition f_id : native_field := plain_field "id" "AutoField".

Definition f_title : native_field :=
  {| name := "title"; ftype := "CharField"; verbose_name := PyStr "title";
     help_text := PyStr ""; default := PyNone; blank := false;
     max_length := Some 100%Z; choices := []; rel_to := None |}.

Definition f_summary : native_field :=
  {| name := "summary"; ftype := "CharField"; verbose_name := PyStr "summary";
     help_text := PyStr ""; default := PyStr ""; blank := true;
     max_length := Some 200%Z; choices := []; rel_to := None |}.

(** A short text column with an enumerated choice set. *)
Definition f_status : native_field :=
  {| name := "status"; ftype := "CharField"; verbose_name := PyStr "status";
     help_text := PyStr ""; default := PyStr "d"; blank := false;
     max_length := Some 1%Z;
     choices := [(PyStr "d", "Draft"); (PyStr "p", "Published")];
     rel_to := None |}.

(** A field kind no converter is registered for. *)
Definition f_location : native_field := plain_field "location" "PointField".

(** A model with the default primary key. *)
Definition Post : native_model :=
  {| object_name := "Post";
     fields := [f_id; f_title; f_summary; f_status; f_location];
     pk_name := "id" |}.

(** A model whose primary key is declared as [uid] and that has an ordinary
    integer column called [id]. *)
Definition Account : native_model :=
  {| object_name := "Account";
     fields := [plain_field "uid" "IntegerField"; plain_field "id" "IntegerField";
                f_title];
     pk_name := "uid" |}.

Definition admin_of (m : native_model) (only exclude : option (list string))
    (page : option nat) (allow_pk : bool) : ModelAdmin :=
  {| model := m; only := only; exclude := exclude; field_args := None;
     list_display := []; sort := (None, false); page := page;
     list_per_page := 10; allow_pk := allow_pk |}.

(** A caller override that passes its own widget. *)
Definition textarea_widget : overrides :=
  {| o_validators := None; o_filters := None;
     o_keywords := {[ "widget" := KWidget (CallerWidget "TextArea") ]} |}.

(** A storage whose identifiers are the decimal strings, kept as numbers,
    and that leaves the rows in stored order. *)
Definition number_id (pk : string) : result nat :=
  match int_literal pk with
  | Some n => if (0 <=? n)%Z then Ok (Z.to_nat n) else Raise InvalidId
  | None => Raise InvalidId
  end.

Definition stored_order (key : string) (l : list (@document nat)) : list document := l.

Definition doc (n : nat) : @document nat := {| doc_id := n; doc_data := ∅ |}.

(** Twenty-five documents, numbered 0 to 24. *)
Definition twenty_five : list (@document nat) := doc <$> seq 0 25.

(** A storage whose identifiers have the textual form of an object
    identifier, 24 hexadecimal digits, kept in lower case. *)
Definition hex_digit (c : ascii) : option ascii :=
  let n := nat_of_ascii c in
  if (48 <=? n)%nat && (n <=? 57)%nat then Some c
  else if (97 <=? n)%nat && (n <=? 102)%nat then Some c
  else if (65 <=? n)%nat && (n <=? 70)%nat then Some (ascii_of_nat (n + 32))
  else None.

Definition hex_object_id (pk : string) : result string :=
  if decide (String.length pk = 24) then
    match mapM hex_digit (String.list_ascii_of_string pk) with
    | Some digits => Ok (String.string_of_list_ascii digits)
    | None => Raise InvalidId
    end
  else Raise InvalidId.

Definition hex_doc (i : string) : @document string :=
  {| doc_id := i; doc_data := ∅ |}.

(** Three documents. *)
Definition three_stored : list (@document string) :=
  [hex_doc "51a7f3c2e4b0a1d2c3f4a501"; hex_doc "51a7f3c2e4b0a1d2c3f4a502";
   hex_doc "51a7f3c2e4b0a1d2c3f4a503"].

End Samples.

Import Samples.

(** * Properties *)

(** ** [convert] *)

Section convert_facts.
Implicit Types (self : ModelConverterBase) (model : native_model)
  (field : native_field) (field_args : option overrides) (kw : kwargs).

Lemma convert_dispatch self model field field_args :
  convert self model field field_args =
  let kwargs := convert_kwargs field field_args in
  match choices field with
  | _ :: _ =>
      Some <$> construct SelectField [("widget", KWidget ChosenSelectWidget)]
                 (set_keyword "choices" (KChoices (choices field)) kwargs)
  | [] =>
      match converters self !! ftype field with
      | Some converter => converter model field kwargs
      | None =>
          match conv_method self (ftype field) with
          | Some converter => converter model field kwargs
          | None => Ok None
          end
      end
  end.
Proof. reflexivity. Qed.

(** [if field_args:] skips the update for an empty dictionary as for [None];
    updating with an empty dictionary changes nothing, so the test is not
    observable. *)
Lemma kwargs_update_empty kw :
  kwargs_update kw {| o_validators := None; o_filters := None; o_keywords := ∅ |}
  = kw.
Proof.
  destruct kw as [vs fs ks]. unfold kwargs_update. simpl.
  by rewrite (left_id_L ∅ (∪)).
Qed.

Lemma convert_kwargs_keywords field field_args k :
  k ≠ "label" → k ≠ "description" → k ≠ "default" →
  keywords (convert_kwargs field field_args) !! k
  = o ← field_args; o_keywords o !! k.
Proof.
  intros H1 H2 H3. unfold convert_kwargs.
  assert (Hbase : ({[ "label" := KValue (verbose_name field);
                      "description" := KValue (help_text field);
                      "default" := KValue (default field) ]}
                   : gmap string kwval) !! k = None).
  { rewrite !lookup_insert_ne by done. by apply lookup_singleton_ne. }
  destruct field_args as [o|]; destruct (blank field);
    destruct (max_length field) as [n|]; try destruct (0 <? n)%Z; simpl;
    try exact Hbase;
    rewrite lookup_union, Hbase; by destruct (o_keywords o !! k).
Qed.

Lemma convert_kwargs_validators field field_args :
  (∀ o, field_args = Some o → o_validators o = None) →
  validators (convert_kwargs field field_args)
  = (if blank field then [Optional] else [])
    ++ match max_length field with
       | Some n => if (0 <? n)%Z then [Length n] else []
       | None => []
       end.
Proof.
  intros Hnone. unfold convert_kwargs.
  destruct field_args as [o|];
    [unfold kwargs_update; cbn [validators]; rewrite (Hnone o eq_refl)|];
  destruct (blank field); destruct (max_length field) as [n|];
    try destruct (0 <? n)%Z; reflexivity.
Qed.

Lemma construct_ok cls explicit kw :
  Forall (λ p, keywords kw !! p.1 = None) explicit →
  construct cls explicit kw
  = Ok {| field_class := cls; field_validators := validators kw;
          field_filters := filters kw;
          field_kwargs := list_to_map explicit ∪ keywords kw |}.
Proof.
  intros Hfree. unfold construct.
  assert (Hno : existsb (λ p, bool_decide (is_Some (keywords kw !! p.1))) explicit = false).
  { induction Hfree as [|p l Hp _ IH]; [done|]. simpl. rewrite IH, Hp.
    rewrite bool_decide_eq_false_2; [done|]. by intros [? [=]]. }
  by rewrite Hno.
Qed.

Lemma construct_clash cls explicit kw :
  Exists (λ p, is_Some (keywords kw !! p.1)) explicit →
  construct cls explicit kw = Raise TypeError.
Proof.
  intros Hclash. unfold construct.
  assert (Hyes : existsb (λ p, bool_decide (is_Some (keywords kw !! p.1))) explicit = true).
  { induction Hclash as [p l Hp|p l _ IH]; simpl.
    - by rewrite bool_decide_eq_true_2.
    - rewrite IH. apply orb_true_r. }
  by rewrite Hyes.
Qed.

Lemma construct_inv cls explicit kw d :
  construct cls explicit kw = Ok d →
  field_class d = cls ∧ field_validators d = validators kw
  ∧ field_filters d = filters kw
  ∧ field_kwargs d = list_to_map explicit ∪ keywords kw.
Proof.
  unfold construct. destruct (existsb _ _); [done|]. by intros [= <-].
Qed.

Lemma fmap_Some_ok {A} (r : result A) (x : option A) :
  Some <$> r = Ok x → ∃ a, r = Ok a ∧ x = Some a.
Proof. destruct r as [a|e]; [|done]. intros [= <-]. by exists a. Qed.

End convert_facts.

(** C4, as the code has it. A field with a non-empty choice set is converted
    by the choice branch whatever converters the instance holds, table or
    methods: the result does not depend on them. It is a [SelectField] over
    the field's choices with the chosen-select widget whenever the caller's
    [field_args] pass no [widget] of their own; when they do, the call that
    builds the field is refused with [TypeError]. *)
Theorem convert_choices_first (self : ModelConverterBase) (model : native_model)
    (field : native_field) (field_args : option overrides) :
  choices field ≠ [] →
  (∀ other, convert other model field field_args
            = convert self model field field_args)
  ∧ ((∀ o, field_args = Some o → o_keywords o !! "widget" = None) →
     ∃ d, convert self model field field_args = Ok (Some d)
          ∧ field_class d = SelectField
          ∧ field_kwargs d !! "choices" = Some (KChoices (choices field))
          ∧ field_kwargs d !! "widget" = Some (KWidget ChosenSelectWidget))
  ∧ (∀ o, field_args = Some o → is_Some (o_keywords o !! "widget") →
          convert self model field field_args = Raise TypeError).
Proof.
  intros Hchoices.
  assert (Hwidget : ∀ v, keywords (set_keyword "choices" v
                             (convert_kwargs field field_args)) !! "widget"
                         = o ← field_args; o_keywords o !! "widget").
  { intros v. simpl. rewrite lookup_insert_ne by done.
    by apply convert_kwargs_keywords. }
  split; [|split].
  - intros other. rewrite !convert_dispatch.
    by destruct (choices field).
  - intros Hfree. rewrite convert_dispatch. cbv zeta.
    destruct (choices field) as [|c cs] eqn:Hc; [done|].
    rewrite construct_ok.
    + eexists. split; [reflexivity|]. simpl. split; [done|]. split.
      * rewrite lookup_union_r; [apply lookup_insert_eq|].
        rewrite lookup_insert_ne by done. apply lookup_empty.
      * rewrite lookup_union_l'; [apply lookup_insert_eq|].
        rewrite lookup_insert_eq. by eexists.
    + constructor; [|constructor]. cbn [fst]. rewrite Hwidget.
      destruct field_args as [o|]; [|done]. simpl. by apply Hfree.
  - intros o -> Hsome. rewrite convert_dispatch. cbv zeta.
    destruct (choices field) as [|c cs] eqn:Hc; [done|].
    rewrite construct_clash; [done|].
    constructor. cbn [fst]. by rewrite Hwidget.
Qed.

Lemma convert_choices_first_witness :
  choices f_status ≠ [] ∧
  ∃ d, convert (AdminModelConverter None None None) Post f_status None = Ok (Some d)
       ∧ field_class d = SelectField.
Proof.
  assert (Hchoices : choices f_status ≠ []) by done.
  split; [exact Hchoices|].
  destruct (convert_choices_first (AdminModelConverter None None None) Post
              f_status None Hchoices) as (_ & Hselect & _).
  destruct Hselect as (d & Hd & Hclass & _); [by intros o [=]|].
  exists d. by split.
Defined.

(** C4 fails as stated: for a field with choices and a caller override of
    [widget], [convert] raises [TypeError] and yields no field. *)
Lemma widget_override_breaks_choice_field :
  choices f_status ≠ [] ∧
  convert (AdminModelConverter None None None) Post f_status (Some textarea_widget)
  = Raise TypeError.
Proof. split; [done|]. vm_compute. reflexivity. Qed.

(** ** Validators *)

Section optional_facts.
Variable STATE_CHOICES : option (list (pyvalue * string)).

Lemma construct_keeps_optional cls explicit kw d :
  Some <$> construct cls explicit kw = Ok (Some d) →
  Optional ∈ field_validators d ↔ Optional ∈ validators kw.
Proof.
  intros (d' & Hd & [= <-])%fmap_Some_ok.
  apply construct_inv in Hd as (_ & -> & _). done.
Qed.

Lemma append_validator_optional v kw :
  v ≠ Optional →
  Optional ∈ validators (append_validator v kw) ↔ Optional ∈ validators kw.
Proof.
  intros Hv. simpl. rewrite elem_of_app, list_elem_of_singleton.
  split; [|by left]. intros [?|?]; [done|]. by destruct Hv.
Qed.

Lemma make_simple_converter_keeps_optional k :
  keeps_optional (make_simple_converter k).
Proof. intros model field kw d. apply construct_keeps_optional. Qed.

Lemma AdminModelConverter_method_keeps_optional t c :
  AdminModelConverter_method STATE_CHOICES t = Some c → keeps_optional c.
Proof.
  unfold AdminModelConverter_method.
  repeat case_decide; intros [= <-]; intros model field kw d;
    unfold conv_ForeignKey, conv_TimeField, conv_DateTimeField, conv_DateField,
      conv_EmailField, conv_IPAddressField, conv_URLField, conv_USStateField,
      conv_NullBooleanField; cbv zeta.
  - destruct (rel_to field); [apply construct_keeps_optional|done].
  - intros ->%construct_keeps_optional. done.
  - intros ->%construct_keeps_optional. done.
  - intros ->%construct_keeps_optional. done.
  - intros ->%construct_keeps_optional. by apply append_validator_optional.
  - intros ->%construct_keeps_optional. by apply append_validator_optional.
  - intros ->%construct_keeps_optional. by apply append_validator_optional.
  - apply construct_keeps_optional.
  - apply construct_keeps_optional.
Qed.

Lemma simple_converters_lookup simple t c :
  simple_converters simple !! t = Some c → ∃ k, c = make_simple_converter k.
Proof.
  unfold simple_converters.
  assert (Hgen : ∀ (acc : gmap string converter_fn),
    (∀ t c, acc !! t = Some c → ∃ k, c = make_simple_converter k) →
    ∀ t c,
      foldl (λ converters group,
               let converter := make_simple_converter group.1 in
               foldl (λ converters name, <[name := converter]> converters)
                     converters group.2) acc simple !! t = Some c →
      ∃ k, c = make_simple_converter k).
  { induction simple as [|[k names] simple IH]; intros acc Hacc; [exact Hacc|].
    simpl. apply IH. clear IH.
    revert acc Hacc. induction names as [|n names IHn]; intros acc Hacc; [exact Hacc|].
    simpl. apply IHn. intros t' c'.
    rewrite lookup_insert. case_decide; [|apply Hacc].
    intros [= <-]. by exists k. }
  apply Hgen. intros t' c'. by rewrite lookup_empty.
Qed.

Lemma optional_in_convert_kwargs field field_args :
  (∀ o, field_args = Some o → o_validators o = None) →
  Optional ∈ validators (convert_kwargs field field_args) ↔ blank field = true.
Proof.
  intros Hnone. rewrite convert_kwargs_validators by done.
  rewrite elem_of_app.
  assert (Hlen : ¬ Optional ∈ match max_length field with
                               | Some n => if (0 <? n)%Z then [Length n] else []
                               | None => []
                               end).
  { destruct (max_length field) as [n|]; [destruct (0 <? n)%Z|].
    - by intros [=]%list_elem_of_singleton.
    - apply not_elem_of_nil.
    - apply not_elem_of_nil. }
  destruct (blank field).
  - split; [done|]. intros _. left. by apply list_elem_of_singleton.
  - split; [|done]. intros [Hin|Hin]; [by apply elem_of_nil in Hin|done].
Qed.

End optional_facts.

(** C8. For an [AdminModelConverter] with any table of simple conversions
    (and extra converters, if any, that leave [Optional] alone), and
    [field_args] that do not replace [validators], the validators of the form
    field [convert] produces contain [Optional] exactly when the model field
    is [blank]. *)
Theorem optional_validator_iff_blank (STATE_CHOICES : option (list (pyvalue * string)))
    (extra_converters : option (gmap string converter_fn))
    (simple_conversions : option (list (form_kind * list string)))
    (model : native_model) (field : native_field) (field_args : option overrides)
    (d : form_field) :
  (∀ extra t c, extra_converters = Some extra → extra !! t = Some c →
                keeps_optional c) →
  (∀ o, field_args = Some o → o_validators o = None) →
  convert (AdminModelConverter STATE_CHOICES extra_converters simple_conversions)
    model field field_args = Ok (Some d) →
  Optional ∈ field_validators d ↔ blank field = true.
Proof.
  intros Hextra Hnone. rewrite convert_dispatch. cbv zeta.
  rewrite <- (optional_in_convert_kwargs field field_args Hnone).
  destruct (choices field) as [|c cs].
  - cbn [converters conv_method AdminModelConverter].
    assert (Htable : ∀ conv,
      match extra_converters with
      | Some extra => extra ∪ simple_converters
          (from_option (λ s, s) DEFAULT_SIMPLE_CONVERSIONS simple_conversions)
      | None => simple_converters
          (from_option (λ s, s) DEFAULT_SIMPLE_CONVERSIONS simple_conversions)
      end !! ftype field = Some conv → keeps_optional conv).
    { intros conv Hconv. destruct extra_converters as [extra|].
      - apply lookup_union_Some_raw in Hconv as [Hconv|[_ Hconv]].
        + by apply (Hextra extra (ftype field)).
        + apply simple_converters_lookup in Hconv as [k ->].
          apply make_simple_converter_keeps_optional.
      - apply simple_converters_lookup in Hconv as [k ->].
        apply make_simple_converter_keeps_optional. }
    destruct (_ !! ftype field) as [conv|] eqn:Hconv.
    + by apply (Htable conv).
    + destruct (AdminModelConverter_method STATE_CHOICES (ftype field))
        as [conv|] eqn:Hmethod; [|done].
      by apply (AdminModelConverter_method_keeps_optional _ _ _ Hmethod).
  - intros ->%construct_keeps_optional. done.
Qed.

Lemma optional_validator_iff_blank_witness :
  (∃ d, convert (AdminModelConverter None None None) Post f_summary None = Ok (Some d)
        ∧ blank f_summary = true ∧ Optional ∈ field_validators d)
  ∧ (∃ d, convert (AdminModelConverter None None None) Post f_title None = Ok (Some d)
          ∧ blank f_title = false ∧ Optional ∉ field_validators d).
Proof.
  split.
  - destruct (convert (AdminModelConverter None None None) Post f_summary None)
      as [[d|]|e] eqn:Hd; try (vm_compute in Hd; discriminate).
    exists d. split; [reflexivity|]. split; [reflexivity|].
    apply (optional_validator_iff_blank None None None Post f_summary None d);
      [by intros extra t c [=]|by intros o [=]|exact Hd|reflexivity].
  - destruct (convert (AdminModelConverter None None None) Post f_title None)
      as [[d|]|e] eqn:Hd; try (vm_compute in Hd; discriminate).
    exists d. split; [reflexivity|]. split; [reflexivity|].
    intros Hin.
    apply (optional_validator_iff_blank None None None Post f_title None d) in Hin;
      [discriminate Hin|by intros extra t c [=]|by intros o [=]|exact Hd].
Defined.

(** ** The coercion of nullable booleans *)

(** C9. [coerce_nullbool] maps ["True"], [True], ["False"], [False],
    ["None"], [None] to [True], [True], [False], [False], [None], [None],
    maps ["1"] to [True], and maps every value [int] accepts to the truth
    value of that integer; it is the [coerce] of the three-choice
    [SelectField] that [conv_NullBooleanField] builds. *)
Theorem coerce_nullbool_table :
  coerce_nullbool (PyStr "True") = Ok (PyBool true)
  ∧ coerce_nullbool (PyBool true) = Ok (PyBool true)
  ∧ coerce_nullbool (PyStr "False") = Ok (PyBool false)
  ∧ coerce_nullbool (PyBool false) = Ok (PyBool false)
  ∧ coerce_nullbool (PyStr "None") = Ok PyNone
  ∧ coerce_nullbool PyNone = Ok PyNone
  ∧ coerce_nullbool (PyStr "1") = Ok (PyBool true)
  ∧ (∀ value n, py_int value = Ok n →
                coerce_nullbool value = Ok (PyBool (bool_of_int n)))
  ∧ (∀ model field kw d,
       conv_NullBooleanField model field kw = Ok (Some d) →
       field_class d = SelectField
       ∧ field_kwargs d !! "coerce" = Some (KCoerce coerce_nullbool)
       ∧ field_kwargs d !! "choices"
         = Some (KChoices [(PyNone, "Unknown"); (PyBool true, "Yes");
                           (PyBool false, "No")])).
Proof.
  repeat (split; [reflexivity|]). split.
  - intros value n Hint. unfold coerce_nullbool.
    destruct value as [|b|z|s]; simpl in *.
    + discriminate.
    + destruct b; simpl; injection Hint as <-; reflexivity.
    + injection Hint as <-. reflexivity.
    + destruct (String.eqb_spec s "None") as [->|_]; [discriminate|].
      destruct (String.eqb_spec s "True") as [->|_]; [discriminate|].
      destruct (String.eqb_spec s "False") as [->|_]; [discriminate|].
      destruct (int_literal s) as [k|]; [|discriminate].
      injection Hint as <-. reflexivity.
  - intros model field kw d (d' & Hd & [= <-])%fmap_Some_ok.
    apply construct_inv in Hd as (-> & _ & _ & ->).
    split; [done|]. split.
    + apply lookup_union_Some_l. simpl.
      rewrite lookup_insert_ne by done. apply lookup_insert_eq.
    + apply lookup_union_Some_l. simpl. apply lookup_insert_eq.
Qed.

Lemma coerce_nullbool_table_witness :
  py_int (PyStr " -12 ") = Ok (-12)%Z
  ∧ coerce_nullbool (PyStr " -12 ") = Ok (PyBool true)
  ∧ py_int (PyStr "0") = Ok 0%Z
  ∧ coerce_nullbool (PyStr "0") = Ok (PyBool false).
Proof.
  assert (H12 : py_int (PyStr " -12 ") = Ok (-12)%Z) by reflexivity.
  assert (H0 : py_int (PyStr "0") = Ok 0%Z) by reflexivity.
  destruct coerce_nullbool_table as (_ & _ & _ & _ & _ & _ & _ & Hint & _).
  split; [exact H12|]. split; [exact (Hint _ _ H12)|].
  split; [exact H0|exact (Hint _ _ H0)].
Defined.

(** ** Lists *)

Lemma filter_iff_in {A} (P Q : A → Prop) `{!∀ x, Decision (P x)}
    `{!∀ x, Decision (Q x)} (l : list A) :
  (∀ x, x ∈ l → P x ↔ Q x) → filter P l = filter Q l.
Proof.
  induction l as [|x l IH]; intros Hiff; [done|].
  rewrite !filter_cons.
  assert (Hx : P x ↔ Q x) by (apply Hiff, elem_of_cons; by left).
  rewrite IH by (intros y Hy; apply Hiff, elem_of_cons; by right).
  destruct (decide (P x)), (decide (Q x)); tauto || done.
Qed.

Lemma filter_all {A} (P : A → Prop) `{!∀ x, Decision (P x)} (l : list A) :
  (∀ x, P x) → filter P l = l.
Proof.
  intros HP. induction l as [|x l IH]; [done|].
  rewrite filter_cons_True by done. by rewrite IH.
Qed.

(** ** The field dictionary *)

Section dict_facts.
Context {V : Type}.
Implicit Types (d : list (string * V)) (k : string).

Lemma dict_set_keys k v d k' :
  k' ∈ (dict_set k v d).*1 ↔ k' = k ∨ k' ∈ d.*1.
Proof.
  induction d as [|[k0 v0] d IH]; simpl.
  - rewrite list_elem_of_singleton. rewrite elem_of_nil. tauto.
  - case_decide; subst; simpl; rewrite !elem_of_cons; [tauto|].
    rewrite IH. tauto.
Qed.

Lemma dict_set_fresh k v d :
  k ∉ d.*1 → dict_set k v d = d ++ [(k, v)].
Proof.
  induction d as [|[k0 v0] d IH]; simpl; [done|].
  rewrite not_elem_of_cons. intros [Hne Hk].
  case_decide; [done|]. f_equal. by apply IH.
Qed.
End dict_facts.

(** ** The loop of [model_fields] *)

Section convert_fields_facts.
Variables (conv : ModelConverterBase) (m : native_model)
          (fa : gmap string overrides).
Implicit Types (l : list (string * native_field)) (acc d : list (string * form_field)).

Lemma convert_fields_cons k f l acc d :
  convert_fields conv m fa ((k, f) :: l) acc = Ok d →
  ∃ r, convert conv m f (fa !! k) = Ok r ∧
       convert_fields conv m fa l
         (match r with Some fld => dict_set k fld acc | None => acc end) = Ok d.
Proof.
  simpl. destruct (convert conv m f (fa !! k)) as [r|e]; simpl; [|done].
  intros Hd. by exists r.
Qed.

Lemma convert_fields_keys_elem l acc d k :
  convert_fields conv m fa l acc = Ok d →
  k ∈ d.*1 ↔ k ∈ acc.*1 ∨ ∃ f, (k, f) ∈ l ∧ yields_field conv m fa (k, f) = true.
Proof.
  revert acc. induction l as [|[k0 f0] l IH]; intros acc Hd.
  - simpl in Hd. injection Hd as <-. split; [by left|].
    intros [?|(f & Hf & _)]; [done|]. by apply elem_of_nil in Hf.
  - apply convert_fields_cons in Hd as (r & Hr & Hd).
    rewrite (IH _ Hd). clear IH Hd.
    assert (Hy : yields_field conv m fa (k0, f0) = match r with Some _ => true | None => false end).
    { unfold yields_field. simpl. by rewrite Hr. }
    destruct r as [fld|].
    + rewrite dict_set_keys. split.
      * intros [[->|?]|(f & Hf & Hc)]; [right|by left|right].
        -- exists f0. split; [apply elem_of_cons; by left|done].
        -- exists f. split; [apply elem_of_cons; by right|done].
      * intros [?|(f & Hf & Hc)]; [left; by right|].
        apply elem_of_cons in Hf as [[= -> ->]|Hf]; [left; by left|].
        right. by exists f.
    + split.
      * intros [?|(f & Hf & Hc)]; [by left|right].
        exists f. split; [apply elem_of_cons; by right|done].
      * intros [?|(f & Hf & Hc)]; [by left|].
        apply elem_of_cons in Hf as [[= -> ->]|Hf]; [congruence|].
        right. by exists f.
Qed.

Lemma convert_fields_keys l acc d :
  NoDup (acc.*1 ++ l.*1) →
  convert_fields conv m fa l acc = Ok d →
  d.*1 = acc.*1 ++ (filter (λ x, yields_field conv m fa x = true) l).*1.
Proof.
  revert acc. induction l as [|[k0 f0] l IH]; intros acc Hnd Hd.
  - simpl in Hd. injection Hd as <-. by rewrite app_nil_r.
  - apply convert_fields_cons in Hd as (r & Hr & Hd).
    assert (Hy : yields_field conv m fa (k0, f0) = match r with Some _ => true | None => false end).
    { unfold yields_field. simpl. by rewrite Hr. }
    simpl in Hnd. apply NoDup_app in Hnd as Hparts.
    destruct Hparts as (Hacc & Hdisj & Hl).
    destruct r as [fld|].
    + rewrite dict_set_fresh in Hd.
      2:{ intros Hin. apply (Hdisj _ Hin). apply elem_of_cons. by left. }
      assert (Hnd' : NoDup ((acc ++ [(k0, fld)]).*1 ++ l.*1)).
      { rewrite fmap_app. simpl. by rewrite <- app_assoc. }
      rewrite (IH _ Hnd' Hd).
      rewrite filter_cons_True by done. rewrite fmap_app. simpl.
      by rewrite <- app_assoc.
    + assert (Hnd' : NoDup (acc.*1 ++ l.*1)).
      { apply NoDup_app. split; [done|]. split.
        - intros x Hx Hx'. apply (Hdisj _ Hx). apply elem_of_cons. by right.
        - by apply NoDup_cons in Hl as [_ ?]. }
      rewrite (IH _ Hnd' Hd).
      rewrite filter_cons_False; [done|]. rewrite Hy. done.
Qed.

Lemma convert_fields_returns l acc :
  Forall (λ x, ∃ r, convert conv m x.2 (fa !! x.1) = Ok r) l →
  ∃ d, convert_fields conv m fa l acc = Ok d.
Proof.
  intros Hall. revert acc. induction Hall as [|[k f] l [r Hr] _ IH]; intros acc.
  - by exists acc.
  - simpl in *. rewrite Hr. simpl. apply IH.
Qed.

End convert_fields_facts.

(** ** Field selection *)

Section model_fields_facts.
Implicit Types (model : native_model) (inc : list string)
  (fields readonly_fields exclude : option (list string)).

Lemma filter_entries (P : string * native_field → Prop) `{!∀ x, Decision (P x)}
    (fs : list native_field) :
  (filter P ((λ f, (name f, f)) <$> fs)).*1
  = name <$> filter (λ f, P (name f, f)) fs.
Proof.
  induction fs as [|f fs IH]; [done|].
  rewrite fmap_cons. rewrite !filter_cons.
  destruct (decide (P (name f, f))); rewrite ?fmap_cons; rewrite IH; done.
Qed.

Lemma filter_names inc (fs : list native_field) :
  name <$> filter (λ f, name f ∈ inc) fs = filter (λ n, n ∈ inc) (name <$> fs).
Proof.
  induction fs as [|f fs IH]; [done|].
  rewrite fmap_cons, !filter_cons.
  destruct (decide (name f ∈ inc)); rewrite ?fmap_cons, IH; done.
Qed.

Lemma select_fields_names model fields exclude :
  (select_fields model fields exclude).*1 `sublist_of` name <$> Orm.fields model.
Proof.
  unfold select_fields; cbv zeta.
  destruct (truthy fields); [|destruct (truthy exclude)].
  - rewrite filter_entries. apply fmap_sublist, sublist_filter.
  - rewrite filter_entries. apply fmap_sublist, sublist_filter.
  - rewrite <- list_fmap_compose. done.
Qed.

Lemma select_fields_include model inc exclude :
  inc ≠ [] →
  select_fields model (Some inc) exclude
  = filter (λ x, x.1 ∈ inc) ((λ f, (name f, f)) <$> Orm.fields model).
Proof. unfold select_fields; cbv zeta. destruct inc; [done|]. done. Qed.

Lemma select_fields_exclude model fields exc k :
  truthy fields = false → exc ≠ [] → k ∈ exc →
  k ∉ (select_fields model fields (Some exc)).*1.
Proof.
  intros Hf Hne Hk. unfold select_fields; cbv zeta. rewrite Hf.
  destruct exc as [|e exc]; [done|]. simpl.
  intros Hin. apply list_elem_of_fmap in Hin as ([k' f] & -> & Hin).
  apply list_elem_of_filter in Hin as [Hnot _]. done.
Qed.

Lemma select_fields_kept model fields exclude f :
  truthy fields = false →
  f ∈ Orm.fields model →
  name f ∉ from_option (λ l, l) [] exclude →
  (name f, f) ∈ select_fields model fields exclude.
Proof.
  intros Hf Hin Hex. unfold select_fields; cbv zeta. rewrite Hf.
  assert (Hpair : (name f, f) ∈ (λ f, (name f, f)) <$> Orm.fields model).
  { apply list_elem_of_fmap. by exists f. }
  destruct (truthy exclude); [|done].
  apply list_elem_of_filter. done.
Qed.

Lemma model_fields_ok model fields readonly_fields exclude field_args conv d :
  model_fields model fields readonly_fields exclude field_args (Some conv) = Ok d ↔
  convert_fields conv model (from_option (λ a, a) ∅ field_args)
    (select_fields model fields exclude) [] = Ok d.
Proof. done. Qed.

Lemma model_form_ok model base fields readonly_fields exclude field_args converter form :
  model_form model base fields readonly_fields exclude field_args converter = Ok form →
  model_fields model fields readonly_fields
    (Some ((if truthy exclude then from_option (λ l, l) [] exclude else []) ++ ["id"]))
    field_args converter = Ok (type_dict form).
Proof.
  unfold model_form.
  destruct (model_fields _ _ _ _ _ _) as [d|e]; simpl; [|done].
  by intros [= <-].
Qed.

End model_fields_facts.

Lemma model_form_omits_id model base fields readonly_fields exclude field_args
    converter form :
  truthy fields = false →
  model_form model base fields readonly_fields exclude field_args converter = Ok form →
  "id" ∉ field_names form.
Proof.
  intros Hinc Hform. apply model_form_ok in Hform.
  destruct converter as [conv|]; [|done].
  apply model_fields_ok in Hform. unfold field_names.
  intros Hin.
  apply (convert_fields_keys_elem _ _ _ _ _ _ "id" Hform) in Hin
    as [Hin|(f & Hf & _)]; [by apply elem_of_nil in Hin|].
  eapply select_fields_exclude; [exact Hinc| |apply elem_of_app; right; by left|].
  - by intros [_ [=]]%app_nil.
  - apply list_elem_of_fmap. by exists ("id", f).
Qed.

(** ** [model_fields]: include lists *)

(** C7, as the code has it. With a non-empty include list, [model_fields]
    selects exactly the model's fields that the list names, in the model's
    declared order whatever the order of the list, and ignores the exclude
    list altogether. The keys of the dictionary it returns are the selected
    names that [convert] gives a form field, in that same order: all of them
    when every named field converts. It returns whenever [convert] does on
    the named fields. An empty include list is no include list: the call
    is the one without it, exclude list applied. *)
Theorem model_fields_include_order model inc readonly_fields exclude field_args
    conv :
  inc ≠ [] →
  NoDup (name <$> fields model) →
  (select_fields model (Some inc) exclude).*1
  = filter (λ n, n ∈ inc) (name <$> fields model)
  ∧ model_fields model (Some inc) readonly_fields exclude field_args (Some conv)
    = model_fields model (Some inc) readonly_fields None field_args (Some conv)
  ∧ (∀ d,
       model_fields model (Some inc) readonly_fields exclude field_args (Some conv)
       = Ok d →
       d.*1 = name <$> filter (λ f, name f ∈ inc ∧ converts conv model field_args f = true)
                         (fields model)
       ∧ ((∀ f, f ∈ fields model → name f ∈ inc →
                converts conv model field_args f = true) →
          d.*1 = filter (λ n, n ∈ inc) (name <$> fields model)))
  ∧ ((∀ f, f ∈ fields model → name f ∈ inc →
        ∃ r, convert conv model f (from_option (λ a, a) ∅ field_args !! name f) = Ok r) →
     ∃ d, model_fields model (Some inc) readonly_fields exclude field_args (Some conv)
          = Ok d)
  ∧ model_fields model (Some []) readonly_fields exclude field_args (Some conv)
    = model_fields model None readonly_fields exclude field_args (Some conv).
Proof.
  intros Hinc Hnd.
  pose proof (filter_names inc (fields model)) as Hnames.
  split; [|split; [|split; [|split; [|done]]]].
  - rewrite select_fields_include by done. by rewrite filter_entries.
  - unfold model_fields. simpl. by rewrite !select_fields_include.
  - intros d Hd. apply model_fields_ok in Hd.
    assert (Hsel : NoDup (([] : field_mapping).*1
                          ++ (select_fields model (Some inc) exclude).*1)).
    { simpl. eapply sublist_NoDup; [exact Hnd|apply select_fields_names]. }
    rewrite (convert_fields_keys _ _ _ _ _ _ Hsel Hd). simpl.
    rewrite select_fields_include by done.
    rewrite list_filter_filter, filter_entries.
    assert (Hkeys : filter (λ f, yields_field conv model
                                   (from_option (λ a, a) ∅ field_args) (name f, f) = true
                                 ∧ (name f, f).1 ∈ inc) (fields model)
                    = filter (λ f, name f ∈ inc ∧ converts conv model field_args f = true)
                        (fields model)).
    { apply list_filter_iff. intros f. unfold converts. simpl. tauto. }
    rewrite Hkeys. split; [done|].
    intros Hall. rewrite <- Hnames. f_equal.
    apply filter_iff_in. intros f Hf. split; [tauto|]. intros Hin. split; [done|].
    by apply Hall.
  - intros Hall. apply convert_fields_returns.
    rewrite select_fields_include by done.
    apply Forall_forall. intros [k f] Hin.
    apply list_elem_of_filter in Hin as [Hk Hin].
    apply list_elem_of_fmap in Hin as (f' & [= -> ->] & Hin). simpl in *.
    by apply Hall.
Qed.

Lemma model_fields_include_order_witness :
  ["status"; "id"] ≠ [] ∧ NoDup (name <$> fields Post) ∧
  ∃ d, model_fields Post (Some ["status"; "id"]) None (Some ["status"]) None
         (Some (AdminModelConverter None None None)) = Ok d
       ∧ d.*1 = ["id"; "status"].
Proof.
  assert (Hinc : ["status"; "id"] ≠ []) by done.
  assert (Hnd : NoDup (name <$> fields Post)) by compute_done.
  split; [exact Hinc|]. split; [exact Hnd|].
  destruct (model_fields_include_order Post ["status"; "id"] None
              (Some ["status"]) None (AdminModelConverter None None None)
              Hinc Hnd) as (_ & _ & Hkeys & Hreturns & _).
  destruct Hreturns as [d Hd].
  { intros f Hf _. revert f Hf. apply Forall_forall.
    repeat constructor; eexists; vm_compute; reflexivity. }
  exists d. split; [exact Hd|].
  rewrite (proj1 (Hkeys d Hd)). vm_compute. reflexivity.
Defined.

(** C7 fails as stated: an empty include list given next to an exclude
    list does not take precedence, the exclude list is applied; and a named
    field that [convert] gives no form field is not in the result. *)
Lemma include_list_is_not_exact :
  (λ d : list (string * form_field), d.*1)
    <$> model_fields Post (Some []) None (Some ["title"]) None
          (Some (AdminModelConverter None None None))
  = Ok ["id"; "summary"; "status"]
  ∧ (λ d : list (string * form_field), d.*1)
      <$> model_fields Post (Some ["location"; "title"]) None None None
            (Some (AdminModelConverter None None None))
    = Ok ["title"].
Proof. split; vm_compute; reflexivity. Qed.

(** ** [model_form] and [get_form]: the primary key *)




(** C10, as the code has it. Without an include list, [model_form] leaves
    out the field called [id], primary key or not, and keeps a primary key
    declared under another name whenever [convert] gives it a form field and
    the caller's own exclude list does not name it. *)
Theorem model_form_excludes_literal_id model base_class fields readonly_fields
    exclude field_args conv form :
  truthy fields = false →
  model_form model base_class fields readonly_fields exclude field_args (Some conv)
  = Ok form →
  ("id" ∉ field_names form)
  ∧ (∀ f, f ∈ Orm.fields model → name f = pk_name model →
          pk_name model ≠ "id" →
          pk_name model ∉ from_option (λ l, l) [] exclude →
          converts conv model field_args f = true →
          pk_name model ∈ field_names form).
Proof.
  intros Hinc Hform. split; [by eapply model_form_omits_id|].
  intros f Hf Hname Hne Hexc Hconv.
  apply model_form_ok, model_fields_ok in Hform.
  apply (convert_fields_keys_elem _ _ _ _ _ _ (pk_name model) Hform).
  right. exists f. rewrite <- Hname. split; [|exact Hconv].
  apply select_fields_kept; [exact Hinc|exact Hf|]. simpl.
  rewrite Hname. rewrite not_elem_of_app. split.
  - destruct (truthy exclude); [exact Hexc|apply not_elem_of_nil].
  - intros Heq%list_elem_of_singleton. by apply Hne.
Qed.

Lemma model_form_excludes_literal_id_witness :
  ∃ form, model_form Account BaseForm None None (Some ["title"]) None
            (Some (AdminModelConverter None None None)) = Ok form
          ∧ ("id" ∉ field_names form) ∧ (pk_name Account ∈ field_names form).
Proof.
  destruct (model_form Account BaseForm None None (Some ["title"]) None
              (Some (AdminModelConverter None None None)))
    as [form|e] eqn:Hform; [|vm_compute in Hform; discriminate].
  exists form. split; [reflexivity|].
  destruct (model_form_excludes_literal_id Account BaseForm None None
              (Some ["title"]) None (AdminModelConverter None None None) form
              eq_refl Hform) as [Hid Hpk].
  split; [exact Hid|].
  apply (Hpk (plain_field "uid" "IntegerField")).
  - apply elem_of_cons. by left.
  - reflexivity.
  - done.
  - compute_done.
  - vm_compute. reflexivity.
Defined.

(** C10 fails as stated: with the include list [["id"]] the form of a model
    whose primary key is [uid] holds the ordinary column [id] and not the
    primary key. *)
Lemma include_list_overrides_forced_exclusion :
  pk_name Account = "uid" ∧
  (field_names <$> model_form Account BaseForm (Some ["id"]) None None None
                     (Some (AdminModelConverter None None None)))
  = Ok ["id"].
Proof. split; vm_compute; reflexivity. Qed.

(** ** Further properties of the form builder *)

Lemma NoDup_name_inj (fs : list native_field) (f g : native_field) :
  NoDup (name <$> fs) → f ∈ fs → g ∈ fs → name f = name g → f = g.
Proof.
  induction fs as [|h fs IH]; [by intros _ ?%elem_of_nil|].
  rewrite fmap_cons. intros [Hh Hnd]%NoDup_cons.
  intros [->|Hf]%elem_of_cons [->|Hg]%elem_of_cons Hname; [done| | |by apply IH].
  - destruct Hh. rewrite Hname. by apply list_elem_of_fmap_2.
  - destruct Hh. rewrite <- Hname. by apply list_elem_of_fmap_2.
Qed.

(** X1. A field whose kind has neither a registered converter nor a
    [conv_] method, and that has no choices, converts to [None], and
    [model_fields] leaves its name out of the dictionary without raising. *)
Theorem unconvertible_field_is_omitted (conv : ModelConverterBase)
    (model : native_model) (fields readonly_fields exclude : option (list string))
    (field_args : option (gmap string overrides)) (f : native_field)
    (d : list (string * form_field)) :
  NoDup (name <$> Orm.fields model) → f ∈ Orm.fields model →
  choices f = [] → converters conv !! ftype f = None →
  conv_method conv (ftype f) = None →
  model_fields model fields readonly_fields exclude field_args (Some conv) = Ok d →
  convert conv model f (from_option (λ a, a) ∅ field_args !! name f) = Ok None
  ∧ name f ∉ d.*1.
Proof.
  intros Hnd Hf Hchoices Htable Hmethod Hd.
  assert (Hnone : convert conv model f (from_option (λ a, a) ∅ field_args !! name f)
                  = Ok None).
  { rewrite convert_dispatch. cbv zeta. rewrite Hchoices. cbv iota.
    rewrite Htable. by rewrite Hmethod. }
  split; [exact Hnone|].
  apply model_fields_ok in Hd. intros Hin.
  apply (convert_fields_keys_elem _ _ _ _ _ _ (name f) Hd) in Hin
    as [Hin|(g & Hg & Hyields)]; [by apply elem_of_nil in Hin|].
  assert (Hgf : g = f).
  { pose proof (select_fields_names model fields exclude) as Hsub.
    assert (Hpair : (name f, g) ∈ (λ f, (name f, f)) <$> Orm.fields model).
    { unfold select_fields in Hg; cbv zeta in Hg.
      destruct (truthy fields); [|destruct (truthy exclude)];
        [apply list_elem_of_filter in Hg as [_ Hg]
        |apply list_elem_of_filter in Hg as [_ Hg]|]; exact Hg. }
    apply list_elem_of_fmap in Hpair as (g' & [= Hname <-] & Hg').
    by apply (NoDup_name_inj (Orm.fields model)). }
  subst g. unfold yields_field in Hyields. simpl in Hyields.
  by rewrite Hnone in Hyields.
Qed.

Lemma unconvertible_field_is_omitted_witness :
  ∃ d, model_fields Post None None None None (Some (AdminModelConverter None None None))
       = Ok d
       ∧ convert (AdminModelConverter None None None) Post f_location None = Ok None
       ∧ "location" ∉ d.*1.
Proof.
  destruct (model_fields Post None None None None
              (Some (AdminModelConverter None None None)))
    as [d|e] eqn:Hd; [|vm_compute in Hd; discriminate].
  exists d. split; [reflexivity|].
  apply (unconvertible_field_is_omitted (AdminModelConverter None None None)
           Post None None None None f_location d); try reflexivity;
    [compute_done| |exact Hd].
  do 4 (apply elem_of_cons; right). apply elem_of_cons. by left.
Defined.

(** ** Classes *)

Lemma issubclass_in_hierarchy (c d : pyclass) :
  issubclass c d = true ↔ in_hierarchy d c.
Proof.
  split.
  - induction c as [n bs IH] using pyclass_bases_ind. simpl.
    intros [Hname|Hbase]%orb_true_iff.
    + apply hierarchy_root. simpl. by apply String.eqb_eq.
    + apply existsb_exists in Hbase as (b & Hb & Hsub).
      apply list_elem_of_In in Hb.
      apply hierarchy_base with b; [exact Hb|].
      rewrite Forall_forall in IH. by apply IH.
  - induction 1 as [c Hname|c b Hb _ IH]; destruct c as [n bs]; simpl in *.
    + apply orb_true_iff. left. by apply String.eqb_eq.
    + apply orb_true_iff. right. apply existsb_exists.
      exists b. split; [by apply list_elem_of_In|exact IH].
Qed.

(** C6, as the code has it. On every candidate that is a class,
    [model_detect] returns, and returns [True] exactly when the class belongs
    to the hierarchy of [mongoengine.Document]. It is a function of the
    candidate alone: it reads and changes nothing else. *)
Theorem model_detect_on_classes (c : pyclass) :
  ∃ b, model_detect (ObjClass c) = Ok b ∧ (b = true ↔ in_hierarchy Document c).
Proof.
  exists (issubclass c Document). split; [reflexivity|].
  apply issubclass_in_hierarchy.
Qed.

(** C6 fails as stated: on a candidate that is not a class, [issubclass]
    raises [TypeError]. *)
Lemma model_detect_raises_on_non_class :
  model_detect (ObjValue PyNone) = Raise TypeError
  ∧ model_detect (ObjValue (PyStr "Post")) = Raise TypeError.
Proof. split; reflexivity. Qed.

(** ** Listing and deleting documents *)

Section backend_facts.
Context {oid : Type} `{EqDecision oid}.
Implicit Types (collection objs : list (@document oid)) (ids : list oid).

Lemma in_bulk_values ids collection :
  (in_bulk ids collection).*2 = filter (λ d, doc_id d ∈ ids) collection.
Proof.
  unfold in_bulk. rewrite <- list_fmap_compose. apply list_fmap_id.
Qed.

Lemma delete_each objs collection :
  foldl (λ collection obj, delete_document obj collection) collection objs
  = filter (λ d, doc_id d ∉ doc_id <$> objs) collection.
Proof.
  revert collection. induction objs as [|obj objs IH]; intros collection; simpl.
  - symmetry. apply filter_all. intros d. apply not_elem_of_nil.
  - rewrite IH. unfold delete_document. rewrite list_filter_filter.
    apply list_filter_iff. intros d. rewrite not_elem_of_cons. tauto.
Qed.

End backend_facts.

(** The rows of the query [get_list] returns, for a positive page size: one
    page of the listed rows. *)
Lemma get_list_rows {oid : Type}
    (ordered_by : string → list (@document oid) → list document)
    (self : ModelAdmin) (collection : list document) (execute : bool) :
  0 < list_per_page self →
  rows ordered_by (get_list ordered_by self collection execute).2
  = take (list_per_page self)
      (drop (from_option (λ p, p * list_per_page self) 0 (page self))
         (listed_rows ordered_by self collection)).
Proof.
  intros Hsize. unfold get_list, listed_rows.
  destruct (list_per_page self) as [|size]; [lia|].
  destruct (sort self) as [[[|c s]|] sort_desc]; destruct (page self) as [p|];
    destruct execute; done.
Qed.

(** [get_objects] returns the values of a dictionary, in no promised order:
    the order in which the objects are deleted does not matter. *)
Lemma delete_order_irrelevant {oid : Type} `{EqDecision oid}
    (objs objs' collection : list (@document oid)) :
  objs ≡ₚ objs' →
  foldl (λ collection obj, delete_document obj collection) collection objs
  = foldl (λ collection obj, delete_document obj collection) collection objs'.
Proof.
  intros Hperm. rewrite !delete_each. apply list_filter_iff. intros d.
  by rewrite Hperm.
Qed.

(** C5, as the code has it. When [ObjectId] accepts every primary key,
    [delete_models] returns [True] and leaves the collection without the
    documents that carry one of the targeted identifiers; an identifier that
    no document carries changes nothing, and every other document stays, in
    order. When [ObjectId] rejects one of the keys, [delete_models] raises
    what [ObjectId] raised. *)
Theorem delete_models_skips_missing {oid : Type} `{EqDecision oid}
    (ObjectId : string → result oid) (pks : list string)
    (collection : list (@document oid)) :
  (∀ ids, collect ObjectId pks = Ok ids →
          delete_models ObjectId pks collection
          = Ok (true, filter (λ d, doc_id d ∉ ids) collection))
  ∧ (∀ e, collect ObjectId pks = Raise e →
          delete_models ObjectId pks collection = Raise e).
Proof.
  unfold delete_models, get_objects. split.
  - intros ids Hids. rewrite Hids. simpl.
    rewrite in_bulk_values, delete_each. do 2 f_equal.
    apply filter_iff_in. intros d Hd. split.
    + intros Hnot Hin. apply Hnot. apply list_elem_of_fmap.
      exists d. split; [done|]. by apply list_elem_of_filter.
    + intros Hnot (d' & Heq & Hd')%list_elem_of_fmap.
      apply list_elem_of_filter in Hd' as [Hin _]. apply Hnot. by rewrite Heq.
  - intros e Hraise. by rewrite Hraise.
Qed.

Lemma delete_models_skips_missing_witness :
  ("51a7f3c2e4b0a1d2c3f4a5ff" ∉ (doc_id <$> three_stored))
  ∧ ("51a7f3c2e4b0a1d2c3f4a502" ∈ (doc_id <$> three_stored))
  ∧ delete_models hex_object_id
      ["51a7f3c2e4b0a1d2c3f4a5ff"; "51A7F3C2E4B0A1D2C3F4A502"] three_stored
    = Ok (true, [hex_doc "51a7f3c2e4b0a1d2c3f4a501";
                 hex_doc "51a7f3c2e4b0a1d2c3f4a503"]).
Proof.
  split; [compute_done|]. split; [compute_done|].
  rewrite (proj1 (delete_models_skips_missing hex_object_id
                    ["51a7f3c2e4b0a1d2c3f4a5ff"; "51A7F3C2E4B0A1D2C3F4A502"]
                    three_stored)
             ["51a7f3c2e4b0a1d2c3f4a5ff"; "51a7f3c2e4b0a1d2c3f4a502"])
    by (vm_compute; reflexivity).
  vm_compute. reflexivity.
Defined.

(** C5 fails as stated: a primary key that no document has and that is not
    of the form of an object identifier is not skipped; [delete_models]
    raises [InvalidId], also when the other key is that of a stored
    document. *)
Lemma malformed_key_is_not_skipped :
  (∀ d, d ∈ three_stored → doc_id d ≠ "no-such-key")
  ∧ hex_doc "51a7f3c2e4b0a1d2c3f4a502" ∈ three_stored
  ∧ delete_models hex_object_id ["no-such-key"; "51a7f3c2e4b0a1d2c3f4a502"]
      three_stored
    = Raise InvalidId
  ∧ delete_models hex_object_id ["51a7f3c2e4b0a1d2c3f4a502"; "no-such-key"]
      three_stored
    = Raise InvalidId.
Proof.
  split; [|split; [|split; vm_compute; reflexivity]].
  - intros d Hd Heq. apply (list_elem_of_fmap_2 doc_id) in Hd.
    rewrite Heq in Hd. revert Hd. compute_done.
  - apply elem_of_cons. right. apply elem_of_cons. by left.
Qed.

(** C2, as the code has it. [get_list] always limits the query to
    [list_per_page] rows; it skips [page * list_per_page] rows when a page
    index is set and none when it is [None], so for a positive page size the
    row source holds the rows of one page in both cases. *)
Theorem get_list_pagination {oid : Type}
    (ordered_by : string → list (@document oid) → list document)
    (self : ModelAdmin) (collection : list document) (execute : bool) :
  q_limit (get_list ordered_by self collection execute).2
  = Some (list_per_page self)
  ∧ q_skip (get_list ordered_by self collection execute).2
    = (λ p, p * list_per_page self) <$> page self
  ∧ (0 < list_per_page self →
     rows ordered_by (get_list ordered_by self collection execute).2
     = take (list_per_page self)
         (drop (from_option (λ p, p * list_per_page self) 0 (page self))
            (listed_rows ordered_by self collection))).
Proof.
  split; [|split]; [| |apply get_list_rows];
    unfold get_list; destruct (sort self) as [[[|c s]|] sort_desc];
    destruct (page self) as [p|]; destruct execute; done.
Qed.

Lemma get_list_pagination_witness :
  0 < list_per_page (admin_of Post None None (Some 1) false)
  ∧ rows stored_order
      (get_list stored_order (admin_of Post None None (Some 1) false) twenty_five true).2
    = doc <$> seq 10 10.
Proof.
  assert (Hsize : 0 < list_per_page (admin_of Post None None (Some 1) false))
    by (simpl; lia).
  split; [exact Hsize|].
  rewrite (proj2 (proj2 (get_list_pagination stored_order
                           (admin_of Post None None (Some 1) false)
                           twenty_five true)) Hsize).
  reflexivity.
Defined.

(** C2 fails as stated: with 25 documents, a page size of 10 and no page
    index, the row source holds the first 10 documents, not all 25. *)
Lemma unpaged_list_is_limited :
  page (admin_of Post None None None false) = None
  ∧ length twenty_five = 25
  ∧ rows stored_order
      (get_list stored_order (admin_of Post None None None false) twenty_five true).2
    = take 10 twenty_five
  ∧ rows stored_order
      (get_list stored_order (admin_of Post None None None false) twenty_five true).2
    ≠ twenty_five.
Proof.
  split; [reflexivity|]. split; [reflexivity|]. split; [reflexivity|].
  intros Heq. apply (f_equal length) in Heq. vm_compute in Heq. discriminate.
Qed.

(** C3. The count [get_list] returns is the size of the whole collection:
    it is taken before the query is ordered, skipped or limited. With 25
    documents, a page size of 10 and page index 2 the count is 25 and the
    row source holds the listed rows from the twentieth on (rows 20 to 24,
    five of them). *)
Theorem get_list_total_count {oid : Type}
    (ordered_by : string → list (@document oid) → list document)
    (self : ModelAdmin) (collection : list document) (execute : bool) :
  (get_list ordered_by self collection execute).1 = length collection
  ∧ ((∀ key l, length (ordered_by key l) = length l) →
     length collection = 25 → list_per_page self = 10 → page self = Some 2 →
     (get_list ordered_by self collection execute).1 = 25
     ∧ rows ordered_by (get_list ordered_by self collection execute).2
       = drop 20 (listed_rows ordered_by self collection)
     ∧ length (rows ordered_by (get_list ordered_by self collection execute).2) = 5).
Proof.
  assert (Hcount : (get_list ordered_by self collection execute).1 = length collection).
  { unfold get_list. by destruct (sort self) as [? ?]. }
  split; [exact Hcount|].
  intros Hlen H25 Hsize Hpage.
  assert (Hlisted : length (listed_rows ordered_by self collection) = 25).
  { unfold listed_rows. destruct (sort self) as [[[|c s]|] ?]; rewrite ?Hlen; done. }
  rewrite get_list_rows by (rewrite Hsize; lia).
  rewrite Hsize, Hpage. simpl from_option.
  assert (Hdrop : length (drop 20 (listed_rows ordered_by self collection)) = 5).
  { rewrite length_drop, Hlisted. done. }
  rewrite take_ge by (rewrite Hdrop; lia).
  split; [by rewrite Hcount|]. split; [done|exact Hdrop].
Qed.

Lemma get_list_total_count_witness :
  (get_list stored_order (admin_of Post None None (Some 2) false) twenty_five true).1 = 25
  ∧ rows stored_order
      (get_list stored_order (admin_of Post None None (Some 2) false) twenty_five true).2
    = doc <$> [20; 21; 22; 23; 24].
Proof.
  destruct (get_list_total_count stored_order
              (admin_of Post None None (Some 2) false) twenty_five true)
    as [_ Hscenario].
  destruct Hscenario as (Hcount & Hrows & _); try reflexivity.
  split; [exact Hcount|]. rewrite Hrows. reflexivity.
Defined.

(** * Further properties *)

(** ** [model_fields]: exclude lists, include lists as sets, failures *)

Lemma select_fields_same_names model inc inc' exclude exclude' :
  inc ≠ [] → inc' ≠ [] → (∀ n, n ∈ inc ↔ n ∈ inc') →
  select_fields model (Some inc) exclude = select_fields model (Some inc') exclude'.
Proof.
  intros Hinc Hinc' Hsame. rewrite !select_fields_include by done.
  apply list_filter_iff. intros x. apply Hsame.
Qed.

(** X4. With no include list, the keys of the dictionary [model_fields]
    returns are, in the model's declaration order, exactly the names of the
    fields that the exclude list does not name and that [convert] gives a
    form field (field names distinct). *)
Theorem model_fields_exclude_order (model : native_model)
    (fields readonly_fields exclude : option (list string))
    (field_args : option (gmap string overrides)) (conv : ModelConverterBase)
    (d : list (string * form_field)) :
  truthy fields = false →
  NoDup (name <$> Orm.fields model) →
  model_fields model fields readonly_fields exclude field_args (Some conv) = Ok d →
  d.*1 = name <$> filter (λ f, (name f ∉ from_option (λ l, l) [] exclude)
                                ∧ converts conv model field_args f = true)
                    (Orm.fields model).
Proof.
  intros Hinc Hnd Hd. apply model_fields_ok in Hd.
  assert (Hsel : NoDup (([] : field_mapping).*1
                        ++ (select_fields model fields exclude).*1)).
  { simpl. eapply sublist_NoDup; [exact Hnd|apply select_fields_names]. }
  rewrite (convert_fields_keys _ _ _ _ _ _ Hsel Hd). simpl.
  assert (Hselect : select_fields model fields exclude
                    = filter (λ x, x.1 ∉ from_option (λ l, l) [] exclude)
                        ((λ f, (name f, f)) <$> Orm.fields model)).
  { unfold select_fields; cbv zeta. rewrite Hinc.
    destruct exclude as [[|e exc]|]; simpl; [| done |];
      symmetry; apply filter_all; intros x; apply not_elem_of_nil. }
  rewrite Hselect, list_filter_filter, filter_entries. f_equal.
  apply list_filter_iff. intros f. unfold converts. simpl. tauto.
Qed.

Lemma model_fields_exclude_order_witness :
  ∃ d, model_fields Post None None (Some ["summary"; "nothing"]) None
         (Some (AdminModelConverter None None None)) = Ok d
       ∧ d.*1 = ["id"; "title"; "status"].
Proof.
  destruct (model_fields Post None None (Some ["summary"; "nothing"]) None
              (Some (AdminModelConverter None None None)))
    as [d|e] eqn:Hd; [|vm_compute in Hd; discriminate].
  exists d. split; [reflexivity|].
  rewrite (model_fields_exclude_order Post None None (Some ["summary"; "nothing"])
             None (AdminModelConverter None None None) d eq_refl
             ltac:(compute_done) Hd).
  vm_compute. reflexivity.
Defined.

(** X5. A non-empty include list acts as a set: two include lists with
    the same elements give the same result of [model_fields], whatever their
    order and repetitions, and whatever [readonly_fields] and [exclude]
    are. *)
Theorem model_fields_include_as_set (model : native_model) (inc inc' : list string)
    (readonly_fields readonly_fields' exclude exclude' : option (list string))
    (field_args : option (gmap string overrides))
    (converter : option ModelConverterBase) :
  inc ≠ [] → inc' ≠ [] → (∀ n, n ∈ inc ↔ n ∈ inc') →
  model_fields model (Some inc) readonly_fields exclude field_args converter
  = model_fields model (Some inc') readonly_fields' exclude' field_args converter.
Proof.
  intros Hinc Hinc' Hsame. unfold model_fields.
  destruct converter as [conv|]; [|done]. simpl.
  by rewrite (select_fields_same_names model inc inc' exclude exclude').
Qed.

Lemma model_fields_include_as_set_witness :
  model_fields Post (Some ["status"; "title"; "status"]) None None None
    (Some (AdminModelConverter None None None))
  = model_fields Post (Some ["title"; "status"]) (Some ["title"]) (Some ["status"])
      None (Some (AdminModelConverter None None None)).
Proof.
  apply model_fields_include_as_set; [done|done|].
  intros n. rewrite !elem_of_cons, !elem_of_nil. tauto.
Defined.

(** X6. With a non-empty include list, the attributes of the class
    [model_form] builds are what [model_fields] returns for that include
    list and no exclude list: neither the caller's exclude list nor the
    appended ['id'] has any effect, and a failure is the same failure. *)
Theorem model_form_include_ignores_exclusions (model : native_model)
    (base_class : pyclass) (inc : list string)
    (readonly_fields exclude : option (list string))
    (field_args : option (gmap string overrides))
    (converter : option ModelConverterBase) :
  inc ≠ [] →
  type_dict <$> model_form model base_class (Some inc) readonly_fields exclude
                  field_args converter
  = model_fields model (Some inc) readonly_fields None field_args converter.
Proof.
  intros Hinc. unfold model_form, model_fields.
  destruct converter as [conv|]; [|done]. simpl.
  rewrite (select_fields_same_names model inc inc _ None) by done.
  by destruct (convert_fields _ _ _ _ _).
Qed.

Lemma model_form_include_ignores_exclusions_witness :
  (λ d : list (string * form_field), d.*1)
    <$> (type_dict <$> model_form Post BaseForm (Some ["id"; "title"]) None
                         (Some ["title"; "id"]) None
                         (Some (AdminModelConverter None None None)))
  = Ok ["id"; "title"].
Proof.
  rewrite (model_form_include_ignores_exclusions Post BaseForm ["id"; "title"]
             None (Some ["title"; "id"]) None
             (Some (AdminModelConverter None None None)) ltac:(done)).
  vm_compute. reflexivity.
Defined.

Lemma convert_fields_raises conv m fa (l : list (string * native_field))
    (acc : list (string * form_field)) e :
  convert_fields conv m fa l acc = Raise e ↔
  ∃ l1 x l2, l = l1 ++ x :: l2
    ∧ Forall (λ y, ∃ r, convert conv m y.2 (fa !! y.1) = Ok r) l1
    ∧ convert conv m x.2 (fa !! x.1) = Raise e.
Proof.
  revert acc. induction l as [|[k f] l IH]; intros acc; simpl.
  - split; [done|]. intros (l1 & x & l2 & Hl & _). by destruct l1.
  - destruct (convert conv m f (fa !! k)) as [r|e'] eqn:Hr; simpl.
    + rewrite IH. split.
      * intros (l1 & x & l2 & -> & Hok & Hx).
        exists ((k, f) :: l1), x, l2. split; [done|]. split; [|done].
        constructor; [by exists r|done].
      * intros (l1 & x & l2 & Hl & Hok & Hx).
        destruct l1 as [|y l1]; simpl in Hl.
        -- injection Hl as <- <-. simpl in Hx. congruence.
        -- injection Hl as <- ->. apply Forall_cons in Hok as [_ Hok].
           by exists l1, x, l2.
    + split.
      * intros [= ->]. exists [], (k, f), l. by repeat split.
      * intros (l1 & x & l2 & Hl & Hok & Hx).
        destruct l1 as [|y l1]; simpl in Hl.
        -- injection Hl as <- <-. simpl in Hx. congruence.
        -- injection Hl as <- ->. apply Forall_cons in Hok as [[r Hy] _].
           simpl in Hy. congruence.
Qed.

(** X7. [model_fields] raises exactly when no converter is given
    ([NameError]: the module does not define [ModelConverter]) or when
    [convert] raises on a selected field while it returned on all the
    selected fields before it; the exception is that of this first failing
    field. *)
Theorem model_fields_raises (model : native_model)
    (fields readonly_fields exclude : option (list string))
    (field_args : option (gmap string overrides))
    (converter : option ModelConverterBase) (e : exn) :
  model_fields model fields readonly_fields exclude field_args converter = Raise e ↔
  (converter = None ∧ e = NameError)
  ∨ ∃ conv l1 x l2,
      converter = Some conv
      ∧ select_fields model fields exclude = l1 ++ x :: l2
      ∧ Forall (λ y, ∃ r, convert conv model y.2
                            (from_option (λ a, a) ∅ field_args !! y.1) = Ok r) l1
      ∧ convert conv model x.2 (from_option (λ a, a) ∅ field_args !! x.1) = Raise e.
Proof.
  unfold model_fields. destruct converter as [conv|]; simpl.
  - rewrite convert_fields_raises. split.
    + intros (l1 & x & l2 & Hl & Hok & Hx). right. by exists conv, l1, x, l2.
    + intros [[[=] _]|(conv' & l1 & x & l2 & [= <-] & Hl & Hok & Hx)].
      by exists l1, x, l2.
  - split.
    + intros [= <-]. by left.
    + intros [[_ ->]|(conv' & l1 & x & l2 & [=] & _)]. done.
Qed.

Lemma model_fields_raises_witness :
  model_fields Post None None None (Some {[ "status" := textarea_widget ]})
    (Some (AdminModelConverter None None None))
  = Raise TypeError
  ∧ model_fields Post None None None None None = Raise NameError.
Proof.
  split.
  - apply model_fields_raises. right.
    exists (AdminModelConverter None None None),
      [("id", f_id); ("title", f_title); ("summary", f_summary)],
      ("status", f_status), [("location", f_location)].
    split; [done|]. split; [reflexivity|]. split.
    + repeat constructor; eexists; vm_compute; reflexivity.
    + vm_compute. reflexivity.
  - apply model_fields_raises. by left.
Defined.

(** ** The converter table *)

Lemma simple_converters_kind simple t :
  simple_converters simple !! t = make_simple_converter <$> simple_kind simple t.
Proof.
  unfold simple_converters.
  assert (Hnames : ∀ k names (acc : gmap string converter_fn),
    foldl (λ converters name, <[name := make_simple_converter k]> converters)
          acc names !! t
    = if decide (t ∈ names) then Some (make_simple_converter k) else acc !! t).
  { intros k names. induction names as [|n names IH]; intros acc.
    - cbn [foldl]. destruct (decide (t ∈ [])) as [Hin|_]; [|done].
      by apply elem_of_nil in Hin.
    - cbn [foldl]. rewrite IH. rewrite lookup_insert.
      destruct (decide (t ∈ names)) as [Hin|Hnot],
               (decide (t ∈ n :: names)) as [Hin'|Hnot']; try done.
      + destruct Hnot'. by apply elem_of_cons; right.
      + apply elem_of_cons in Hin' as [->|?]; [|done].
        by rewrite decide_True.
      + rewrite decide_False; [done|]. intros ->. apply Hnot'.
        by apply elem_of_cons; left. }
  assert (Hgen : ∀ (acc : gmap string converter_fn),
    foldl (λ converters group,
             let converter := make_simple_converter group.1 in
             foldl (λ converters name, <[name := converter]> converters)
                   converters group.2) acc simple !! t
    = match simple_kind simple t with
      | Some k => Some (make_simple_converter k)
      | None => acc !! t
      end).
  { induction simple as [|[k names] simple IH]; intros acc; [done|].
    simpl. rewrite IH. destruct (simple_kind simple t); [done|].
    rewrite Hnames. by destruct (decide (t ∈ names)). }
  rewrite Hgen. destruct (simple_kind simple t); [done|]. apply lookup_empty.
Qed.

Lemma AdminModelConverter_table STATE extra simple t :
  converters (AdminModelConverter STATE extra simple) !! t
  = match extra ≫= (λ e : gmap string converter_fn, e !! t) with
    | Some c => Some c
    | None => make_simple_converter
                <$> simple_kind (from_option (λ s, s) DEFAULT_SIMPLE_CONVERSIONS simple) t
    end.
Proof.
  cbn [converters AdminModelConverter].
  destruct extra as [e|]; simpl.
  - rewrite lookup_union, simple_converters_kind.
    destruct (e !! t), (simple_kind _ t); done.
  - apply simple_converters_kind.
Qed.

(** X8. A field without choices whose kind the table of simple
    conversions lists, and no extra converter overrides, always converts, to
    the field class of the table. Every keyword of the caller's
    [field_args], ['widget'] included, reaches the constructor and takes
    precedence over [label], [description] and [default]; when the caller
    gives no validators, the validators are [Optional] (field blank) followed
    by [Length] (positive [max_length]). *)
Theorem simple_conversion_passes_keywords (STATE : option (list (pyvalue * string)))
    (extra : option (gmap string converter_fn))
    (simple : option (list (form_kind * list string)))
    (model : native_model) (field : native_field) (field_args : option overrides)
    (k : form_kind) :
  choices field = [] →
  extra ≫= (λ e : gmap string converter_fn, e !! ftype field) = None →
  simple_kind (from_option (λ s, s) DEFAULT_SIMPLE_CONVERSIONS simple) (ftype field)
  = Some k →
  ∃ d, convert (AdminModelConverter STATE extra simple) model field field_args
       = Ok (Some d)
       ∧ field_class d = k
       ∧ (∀ key, field_kwargs d !! key
                 = match field_args ≫= (λ o, o_keywords o !! key) with
                   | Some v => Some v
                   | None =>
                       ({[ "label" := KValue (verbose_name field);
                           "description" := KValue (help_text field);
                           "default" := KValue (default field) ]}
                        : gmap string kwval) !! key
                   end)
       ∧ ((∀ o, field_args = Some o → o_validators o = None) →
          field_validators d
          = (if blank field then [Optional] else [])
            ++ match max_length field with
               | Some n => if (0 <? n)%Z then [Length n] else []
               | None => []
               end).
Proof.
  intros Hchoices Hextra Hkind. rewrite convert_dispatch. cbv zeta.
  rewrite Hchoices, AdminModelConverter_table, Hextra, Hkind. simpl.
  unfold make_simple_converter. rewrite construct_ok by constructor. simpl.
  eexists. split; [reflexivity|]. simpl. split; [done|]. split.
  - intros key. rewrite (left_id_L ∅ (∪)).
    unfold convert_kwargs.
    destruct field_args as [o|]; destruct (blank field);
      destruct (max_length field) as [n|]; try destruct (0 <? n)%Z; simpl;
      rewrite ?lookup_union; try done;
      by destruct (o_keywords o !! key), (_ !! key).
  - intros Hnone. by apply convert_kwargs_validators.
Qed.

Lemma simple_conversion_passes_keywords_witness :
  ∃ d, convert (AdminModelConverter None None None) Post f_title (Some textarea_widget)
       = Ok (Some d)
       ∧ field_class d = StringField
       ∧ field_kwargs d !! "widget" = Some (KWidget (CallerWidget "TextArea"))
       ∧ field_validators d = [Length 100].
Proof.
  destruct (simple_conversion_passes_keywords None None None Post f_title
              (Some textarea_widget) StringField eq_refl eq_refl eq_refl)
    as (d & Hd & Hclass & Hkw & Hvalidators).
  exists d. split; [exact Hd|]. split; [exact Hclass|]. split.
  - rewrite Hkw. reflexivity.
  - apply Hvalidators. by intros o [= <-].
Defined.

(** ** When [convert] raises *)

Lemma construct_raises cls explicit kw e :
  Some <$> construct cls explicit kw = Raise e ↔
  e = TypeError ∧ ∃ key, key ∈ explicit.*1 ∧ is_Some (keywords kw !! key).
Proof.
  split.
  - intros Hraise.
    destruct (decide (Exists (λ p, is_Some (keywords kw !! p.1)) explicit))
      as [Hclash|Hfree].
    + rewrite construct_clash in Hraise by done. injection Hraise as <-.
      split; [done|]. apply Exists_exists in Hclash as (p & Hp & Hsome).
      exists p.1. split; [by apply list_elem_of_fmap_2|done].
    + rewrite construct_ok in Hraise; [done|].
      apply Forall_forall. intros p Hp.
      destruct (keywords kw !! p.1) eqn:Hlook; [|done].
      destruct Hfree. apply Exists_exists. exists p. split; [done|].
      by rewrite Hlook.
  - intros (-> & key & Hkey & Hsome).
    rewrite construct_clash; [done|].
    apply list_elem_of_fmap in Hkey as (p & -> & Hp).
    apply Exists_exists. by exists p.
Qed.

Lemma caller_keyword field field_args key :
  key ≠ "label" → key ≠ "description" → key ≠ "default" →
  is_Some (keywords (convert_kwargs field field_args) !! key)
  ↔ ∃ o, field_args = Some o ∧ is_Some (o_keywords o !! key).
Proof.
  intros H1 H2 H3. rewrite convert_kwargs_keywords by done.
  destruct field_args as [o|]; simpl.
  - split; [intros ?; by exists o|]. by intros (o' & [= <-] & ?).
  - split; [by intros [? [=]]|]. by intros (o' & [=] & _).
Qed.

Lemma clash_iff field field_args e (explicit : list string) (dangling : Prop) :
  ¬ dangling →
  Forall (λ k, k ≠ "label" ∧ k ≠ "description" ∧ k ≠ "default") explicit →
  (e = TypeError
   ∧ ∃ key, key ∈ explicit
            ∧ is_Some (keywords (convert_kwargs field field_args) !! key))
  ↔ (dangling ∧ e = AttributeError)
    ∨ (¬ dangling ∧ e = TypeError
       ∧ ∃ o key, field_args = Some o ∧ key ∈ explicit
                  ∧ is_Some (o_keywords o !! key)).
Proof.
  intros Hnot Hkeys. rewrite Forall_forall in Hkeys. split.
  - intros (-> & key & Hkey & Hsome). right. split; [done|]. split; [done|].
    destruct (Hkeys key Hkey) as (H1 & H2 & H3).
    apply caller_keyword in Hsome as (o & -> & Hsome); [|done..].
    by exists o, key.
  - intros [[? _]|(_ & -> & o & key & -> & Hkey & Hsome)]; [done|].
    split; [done|]. exists key. split; [done|].
    destruct (Hkeys key Hkey) as (H1 & H2 & H3).
    apply caller_keyword; [done..|]. by exists o.
Qed.

Ltac settle_kind Heq :=
  repeat first [ rewrite decide_True by (by rewrite Heq)
               | rewrite decide_False by (rewrite Heq; discriminate) ].

Ltac clash_case :=
  rewrite ?construct_raises;
  cbn [fmap list_fmap fst keywords append_filter append_validator];
  apply clash_iff; [intros (_ & _ & ? & ?); congruence|repeat constructor; done].

(** X9. When [convert] of an [AdminModelConverter] without extra
    converters raises: [AttributeError] exactly for a [ForeignKey] without a
    relation that reaches [conv_ForeignKey], and otherwise [TypeError]
    exactly when the caller's [field_args] hold a keyword that the chosen
    constructor call writes out itself ([widget], [model], [format],
    [choices] or [coerce], according to the kind). *)
Theorem convert_raises (STATE : option (list (pyvalue * string)))
    (simple : option (list (form_kind * list string)))
    (model : native_model) (field : native_field) (field_args : option overrides)
    (e : exn) :
  let table := from_option (λ s, s) DEFAULT_SIMPLE_CONVERSIONS simple in
  let dangling :=
    choices field = [] ∧ simple_kind table (ftype field) = None
    ∧ ftype field = "ForeignKey" ∧ rel_to field = None in
  convert (AdminModelConverter STATE None simple) model field field_args = Raise e ↔
  (dangling ∧ e = AttributeError)
  ∨ (¬ dangling ∧ e = TypeError
     ∧ ∃ o key, field_args = Some o ∧ key ∈ explicit_keywords table field
                ∧ is_Some (o_keywords o !! key)).
Proof.
  intros table dangling. subst dangling.
  rewrite convert_dispatch. cbv zeta. unfold explicit_keywords.
  destruct (choices field) as [|c cs] eqn:Hchoices.
  - rewrite AdminModelConverter_table. simpl. fold table.
    destruct (simple_kind table (ftype field)) as [k|] eqn:Hkind; simpl.
    { unfold make_simple_converter. rewrite construct_raises. simpl.
      apply clash_iff; [by intros (_ & [=] & _)|constructor]. }
    cbn [conv_method AdminModelConverter]. unfold AdminModelConverter_method.
    destruct (decide (ftype field = "ForeignKey")) as [Heq|?].
    { unfold conv_ForeignKey. destruct (rel_to field) as [to|] eqn:Hrel.
      - clash_case.
      - split.
        + intros [= <-]. by left.
        + intros [[_ ->]|[Hnot _]]; [done|]. by destruct Hnot. }
    destruct (decide (ftype field = "TimeField")) as [Heq|?].
    { unfold conv_TimeField; cbv zeta. clash_case. }
    destruct (decide (ftype field = "DateTimeField")) as [Heq|?].
    { unfold conv_DateTimeField; cbv zeta. clash_case. }
    destruct (decide (ftype field = "DateField")) as [Heq|?].
    { unfold conv_DateField; cbv zeta. clash_case. }
    destruct (decide (ftype field = "EmailField")) as [Heq|?].
    { settle_kind Heq. unfold conv_EmailField; cbv zeta. clash_case. }
    destruct (decide (ftype field = "IPAddressField")) as [Heq|?].
    { settle_kind Heq. unfold conv_IPAddressField; cbv zeta. clash_case. }
    destruct (decide (ftype field = "URLField")) as [Heq|?].
    { settle_kind Heq. unfold conv_URLField; cbv zeta. clash_case. }
    destruct (decide (ftype field = "USStateField")) as [Heq|?].
    { unfold conv_USStateField; cbv zeta. clash_case. }
    destruct (decide (ftype field = "NullBooleanField")) as [Heq|?].
    { unfold conv_NullBooleanField; cbv zeta. clash_case. }
    split; [done|].
    intros [[(_ & _ & ? & _) _]|(_ & _ & o & key & _ & Hkey & _)]; [done|].
    by apply elem_of_nil in Hkey.
  - rewrite construct_raises. cbn [fmap list_fmap fst].
    split.
    + intros (-> & key & Hkey & Hsome). right.
      split; [by intros [[=] _]|]. split; [done|].
      apply list_elem_of_singleton in Hkey as ->.
      simpl in Hsome. rewrite lookup_insert_ne in Hsome by done.
      apply caller_keyword in Hsome as (o & -> & Hsome); [|done..].
      exists o, "widget". split; [done|]. split; [|done].
      by apply list_elem_of_singleton.
    + intros [[([=] & _) _]|(_ & -> & o & key & -> & Hkey & Hsome)].
      split; [done|]. exists key. split; [done|].
      apply list_elem_of_singleton in Hkey as ->.
      simpl. rewrite lookup_insert_ne by done.
      apply caller_keyword; [done..|]. by exists o.
Qed.

Lemma convert_raises_witness :
  convert (AdminModelConverter None None None) Post
    {| name := "author"; ftype := "ForeignKey"; verbose_name := PyStr "author";
       help_text := PyStr ""; default := PyNone; blank := false;
       max_length := None; choices := []; rel_to := Some "User" |}
    (Some textarea_widget)
  = Raise TypeError.
Proof.
  apply (convert_raises None None Post). right.
  split; [by intros (_ & _ & _ & [=])|]. split; [done|].
  exists textarea_widget, "widget". split; [done|]. split; [compute_done|].
  by eexists.
Defined.

(** ** Validators and filters of the kind-specific handlers *)

Lemma convert_kwargs_validators_from field field_args :
  validators (convert_kwargs field field_args)
  = from_option (λ l, l) [] (field_args ≫= o_validators)
    ++ (if blank field then [Optional] else [])
    ++ match max_length field with
       | Some n => if (0 <? n)%Z then [Length n] else []
       | None => []
       end.
Proof.
  unfold convert_kwargs.
  destruct field_args as [[[vs|] fs ks]|]; simpl;
    destruct (blank field); destruct (max_length field) as [n|];
    try destruct (0 <? n)%Z; simpl; rewrite ?app_nil_r, <- ?app_assoc; done.
Qed.

Lemma convert_kwargs_filters field field_args :
  filters (convert_kwargs field field_args)
  = from_option (λ l, l) [] (field_args ≫= o_filters).
Proof.
  unfold convert_kwargs.
  destruct field_args as [[vs [fs|] ks]|]; simpl;
    destruct (blank field); destruct (max_length field) as [n|];
    try destruct (0 <? n)%Z; done.
Qed.

(** X10. [EmailField], [IPAddressField] and [URLField] (not claimed by the
    table of simple conversions) always convert, to a [StringField] whose
    validators are the caller's, then [Optional] (field blank), then [Length]
    (positive [max_length]), then the format validator of the kind, last. *)
Theorem format_kinds_append_validator (STATE : option (list (pyvalue * string)))
    (simple : option (list (form_kind * list string)))
    (model : native_model) (field : native_field) (field_args : option overrides)
    (v : validator) :
  choices field = [] →
  simple_kind (from_option (λ s, s) DEFAULT_SIMPLE_CONVERSIONS simple) (ftype field)
  = None →
  (ftype field, v) ∈ [("EmailField", email); ("IPAddressField", ip_address);
                      ("URLField", url)] →
  ∃ d, convert (AdminModelConverter STATE None simple) model field field_args
       = Ok (Some d)
       ∧ field_class d = StringField
       ∧ field_validators d
         = from_option (λ l, l) [] (field_args ≫= o_validators)
           ++ (if blank field then [Optional] else [])
           ++ match max_length field with
              | Some n => if (0 <? n)%Z then [Length n] else []
              | None => []
              end
           ++ [v].
Proof.
  intros Hchoices Hkind Hv. rewrite convert_dispatch. cbv zeta.
  rewrite Hchoices, AdminModelConverter_table. simpl. rewrite Hkind. simpl.
  cbn [conv_method AdminModelConverter]. unfold AdminModelConverter_method.
  repeat (apply elem_of_cons in Hv as [[= Heq ->]|Hv];
          [settle_kind Heq;
           unfold conv_EmailField, conv_IPAddressField, conv_URLField; cbv zeta;
           rewrite construct_ok by constructor; eexists;
           split; [reflexivity|]; split; [done|]; simpl;
           by rewrite convert_kwargs_validators_from, <- !app_assoc|]).
  by apply elem_of_nil in Hv.
Qed.

Lemma format_kinds_append_validator_witness :
  ∃ d, convert (AdminModelConverter None None None) Post
         {| name := "contact"; ftype := "EmailField"; verbose_name := PyStr "contact";
            help_text := PyStr ""; default := PyNone; blank := true;
            max_length := Some 75%Z; choices := []; rel_to := None |}
         (Some {| o_validators := Some [CallerValidator "Required"];
                  o_filters := None; o_keywords := ∅ |})
       = Ok (Some d)
       ∧ field_validators d
         = [CallerValidator "Required"; Optional; Length 75; email].
Proof.
  destruct (format_kinds_append_validator None None Post
              {| name := "contact"; ftype := "EmailField";
                 verbose_name := PyStr "contact"; help_text := PyStr "";
                 default := PyNone; blank := true; max_length := Some 75%Z;
                 choices := []; rel_to := None |}
              (Some {| o_validators := Some [CallerValidator "Required"];
                       o_filters := None; o_keywords := ∅ |})
              email eq_refl eq_refl ltac:(apply elem_of_cons; by left))
    as (d & Hd & _ & Hvalidators).
  exists d. split; [exact Hd|exact Hvalidators].
Defined.

(** X11. A converted [TimeField], [DateTimeField] or [DateField] has the
    caller's filters followed by one filter of the converter. That filter is
    idempotent, leaves every value that is not a [datetime] as it is, and
    maps a [datetime] to its date for a [DateField] and to its time for the
    two others, which are both built as [DateTimeField] with the format
    ['%H:%M:%S']. *)
Theorem temporal_kinds_filter (STATE : option (list (pyvalue * string)))
    (simple : option (list (form_kind * list string)))
    (model : native_model) (field : native_field) (field_args : option overrides)
    (d : form_field) :
  choices field = [] →
  simple_kind (from_option (λ s, s) DEFAULT_SIMPLE_CONVERSIONS simple) (ftype field)
  = None →
  ftype field ∈ ["TimeField"; "DateTimeField"; "DateField"] →
  convert (AdminModelConverter STATE None simple) model field field_args
  = Ok (Some d) →
  ∃ last run,
    field_filters d = from_option (λ l, l) [] (field_args ≫= o_filters) ++ [last]
    ∧ run_filter last = Some run
    ∧ field_class d = (if decide (ftype field = "DateField") then DateField
                       else DateTimeField)
    ∧ (ftype field ≠ "DateField" →
       field_kwargs d !! "format" = Some (KValue (PyStr "%H:%M:%S")))
    ∧ (∀ obj, run (run obj) = run obj)
    ∧ (∀ obj, (∀ day t, obj ≠ DatetimeValue day t) → run obj = obj)
    ∧ (∀ day t, run (DatetimeValue day t)
                = if decide (ftype field = "DateField") then DateValue day else TimeValue t).
Proof.
  intros Hchoices Hkind Hkinds. rewrite convert_dispatch. cbv zeta.
  rewrite Hchoices, AdminModelConverter_table. simpl. rewrite Hkind. simpl.
  cbn [conv_method AdminModelConverter]. unfold AdminModelConverter_method.
  repeat (apply elem_of_cons in Hkinds as [Heq|Hkinds];
          [settle_kind Heq;
           unfold conv_TimeField, conv_DateTimeField, conv_DateField; cbv zeta;
           intros (d' & Hd & [= <-])%fmap_Some_ok;
           apply construct_inv in Hd as (Hclass & _ & Hfilters & Hkwargs)|]);
    [| | |by apply elem_of_nil in Hkinds].
  - exists time_only, run_time_only.
    rewrite Hfilters, Hclass, Hkwargs. cbn [filters append_filter].
    rewrite convert_kwargs_filters. settle_kind Heq.
    split; [done|]. split; [done|]. split; [done|]. split.
    { intros _. simpl. apply lookup_union_Some_l.
      rewrite lookup_insert_ne by done. apply lookup_insert_eq. }
    split; [by intros []|]. split; [|by intros day t; settle_kind Heq].
    intros [day t| | |] Hnot; try done. by destruct (Hnot day t).
  - exists time_only, run_time_only.
    rewrite Hfilters, Hclass, Hkwargs. cbn [filters append_filter].
    rewrite convert_kwargs_filters. settle_kind Heq.
    split; [done|]. split; [done|]. split; [done|]. split.
    { intros _. simpl. apply lookup_union_Some_l.
      rewrite lookup_insert_ne by done. apply lookup_insert_eq. }
    split; [by intros []|]. split; [|by intros day t; settle_kind Heq].
    intros [day t| | |] Hnot; try done. by destruct (Hnot day t).
  - exists date_only, run_date_only.
    rewrite Hfilters, Hclass, Hkwargs. cbn [filters append_filter].
    rewrite convert_kwargs_filters. settle_kind Heq.
    split; [done|]. split; [done|]. split; [done|]. split.
    { intros Hne. by destruct Hne. }
    split; [by intros []|]. split; [|by intros day t; settle_kind Heq].
    intros [day t| | |] Hnot; try done. by destruct (Hnot day t).
Qed.

Lemma temporal_kinds_filter_witness :
  ∃ d last run,
    convert (AdminModelConverter None None None) Post
      (plain_field "published" "DateTimeField") None = Ok (Some d)
    ∧ field_filters d = [last] ∧ run_filter last = Some run
    ∧ run (DatetimeValue {| year := 2013; month := 5; day := 17 |}
                    {| hour := 9; minute := 30; second := 0 |})
      = TimeValue {| hour := 9; minute := 30; second := 0 |}.
Proof.
  destruct (convert (AdminModelConverter None None None) Post
              (plain_field "published" "DateTimeField") None)
    as [[d|]|e] eqn:Hd; try (vm_compute in Hd; discriminate).
  destruct (temporal_kinds_filter None None Post
              (plain_field "published" "DateTimeField") None d
              eq_refl eq_refl ltac:(compute_done) Hd)
    as (last & run & Hfilters & Hrun & _ & _ & _ & _ & Htime).
  exists d, last, run. split; [reflexivity|]. split; [exact Hfilters|].
  split; [exact Hrun|]. apply Htime.
Defined.

(** ** [coerce_nullbool] and the values it returns *)

(** X12. Whatever [coerce_nullbool] returns is [None], [True] or [False];
    it is a fixed point of [coerce_nullbool], and coercing its [str] gives
    it back. *)
Theorem coerce_nullbool_round_trip (v r : pyvalue) :
  coerce_nullbool v = Ok r →
  r ∈ [PyNone; PyBool true; PyBool false]
  ∧ coerce_nullbool r = Ok r
  ∧ coerce_nullbool (PyStr (py_str r)) = Ok r.
Proof.
  unfold coerce_nullbool.
  destruct (py_dict_get _ v) as [x|] eqn:Hget.
  - intros [= <-]. simpl in Hget.
    repeat match type of Hget with
           | (if ?b then _ else _) = _ => destruct b
           end; try discriminate; injection Hget as <-;
      (split; [|split; reflexivity]);
      rewrite !elem_of_cons; tauto.
  - destruct (py_int v) as [n|e]; [|done]. simpl. intros [= <-].
    destruct (bool_of_int n); (split; [|split; reflexivity]);
      rewrite !elem_of_cons; tauto.
Qed.

Lemma coerce_nullbool_round_trip_witness :
  coerce_nullbool (PyStr " 7 ") = Ok (PyBool true)
  ∧ coerce_nullbool (PyStr (py_str (PyBool true))) = Ok (PyBool true).
Proof.
  assert (H7 : coerce_nullbool (PyStr " 7 ") = Ok (PyBool true)) by reflexivity.
  split; [exact H7|].
  exact (proj2 (proj2 (coerce_nullbool_round_trip _ _ H7))).
Defined.

(** ** Detection follows inheritance *)

(** X13. Detection follows inheritance at any depth: a class that has,
    through any chain of bases, a class that [model_detect] accepts is
    accepted as well. *)
Theorem model_detect_inherited (b c : pyclass) :
  derives_from b c →
  model_detect (ObjClass b) = Ok true →
  model_detect (ObjClass c) = Ok true.
Proof.
  intros Hderives. simpl. intros [= Hb]. f_equal.
  induction Hderives as [|c x Hx _ IH]; [exact Hb|].
  destruct c as [n bs]. simpl in *. apply orb_true_iff. right.
  apply existsb_exists. exists x. split; [by apply list_elem_of_In|exact IH].
Qed.

Lemma model_detect_inherited_witness :
  model_detect
    (ObjClass (Class "app.Draft" [object_class; Class "app.Post" [Document]]))
  = Ok true.
Proof.
  apply (model_detect_inherited Document).
  - apply derives_base with (Class "app.Post" [Document]).
    + simpl. apply elem_of_cons. right. apply elem_of_cons. by left.
    + apply derives_base with Document; [|apply derives_self].
      simpl. apply elem_of_cons. by left.
  - reflexivity.
Defined.

(** ** Pages *)

Lemma pages_concat {A} (ps n : nat) (l : list A) :
  concat ((λ p, take ps (drop (p * ps) l)) <$> seq 0 n) = take (n * ps) l.
Proof.
  induction n as [|n IH]; [done|].
  rewrite seq_S, fmap_app, concat_app, IH. simpl.
  rewrite app_nil_r, take_take_drop. f_equal. lia.
Qed.

Lemma listed_rows_at_page {oid : Type}
    (ordered_by : string → list (@document oid) → list document)
    (self : ModelAdmin) (p : nat) (collection : list document) :
  listed_rows ordered_by (at_page self p) collection
  = listed_rows ordered_by self collection.
Proof. done. Qed.

(** X14. For a positive page size, requesting the pages 0 to n-1 in turn
    and concatenating their rows gives the first n * [list_per_page] rows of the sorted collection,
    with no row repeated or skipped between pages, and the whole sorted
    collection once n pages are enough to hold it. *)
Theorem get_list_pages_cover {oid : Type}
    (ordered_by : string → list (@document oid) → list document)
    (self : ModelAdmin) (collection : list document) (execute : bool) (n : nat) :
  0 < list_per_page self →
  concat ((λ p, rows ordered_by
                  (get_list ordered_by (at_page self p) collection execute).2)
          <$> seq 0 n)
  = take (n * list_per_page self) (listed_rows ordered_by self collection)
  ∧ ((length (listed_rows ordered_by self collection) ≤ n * list_per_page self)%nat →
     concat ((λ p, rows ordered_by
                     (get_list ordered_by (at_page self p) collection execute).2)
             <$> seq 0 n)
     = listed_rows ordered_by self collection).
Proof.
  intros Hsize.
  assert (Hpages : concat ((λ p, rows ordered_by
                     (get_list ordered_by (at_page self p) collection execute).2)
                    <$> seq 0 n)
                   = take (n * list_per_page self)
                       (listed_rows ordered_by self collection)).
  { rewrite <- pages_concat. f_equal. apply list_fmap_ext. intros _ p _.
    by rewrite get_list_rows by done. }
  split; [exact Hpages|]. intros Hall. rewrite Hpages. by apply take_ge.
Qed.

Lemma get_list_pages_cover_witness :
  concat ((λ p, rows stored_order
                  (get_list stored_order
                     (at_page (admin_of Post None None None false) p)
                     twenty_five false).2)
          <$> seq 0 3)
  = twenty_five.
Proof.
  apply (get_list_pages_cover stored_order (admin_of Post None None None false)
           twenty_five false 3).
  - simpl. lia.
  - vm_compute. lia.
Defined.

(** X15. For a positive page size and when sorting only permutes the rows,
    [get_list] returns
    min([list_per_page], rows left after the skip) rows, all of them
    documents of the collection; a page past the end gives no row while the
    count is still that of the whole collection. *)
Theorem get_list_rows_bounds {oid : Type}
    (ordered_by : string → list (@document oid) → list document)
    (self : ModelAdmin) (collection : list document) (execute : bool) :
  0 < list_per_page self →
  (∀ key l, ordered_by key l ≡ₚ l) →
  length (rows ordered_by (get_list ordered_by self collection execute).2)
  = min (list_per_page self)
        (length collection
         - from_option (λ p, p * list_per_page self) 0 (page self))
  ∧ (∀ d, d ∈ rows ordered_by (get_list ordered_by self collection execute).2 →
          d ∈ collection)
  ∧ (∀ p, page self = Some p → (length collection ≤ p * list_per_page self)%nat →
          rows ordered_by (get_list ordered_by self collection execute).2 = []
          ∧ (get_list ordered_by self collection execute).1 = length collection).
Proof.
  intros Hsize Hperm.
  assert (Hlisted : listed_rows ordered_by self collection ≡ₚ collection).
  { unfold listed_rows. by destruct (sort self) as [[[|c s]|] ?]. }
  rewrite get_list_rows by done. split; [|split].
  - by rewrite length_take, length_drop, Hlisted.
  - intros d Hd. rewrite <- Hlisted.
    by apply subseteq_take, subseteq_drop in Hd.
  - intros p Hp Hpast. rewrite Hp. simpl. split.
    + rewrite drop_ge; [apply take_nil|]. by rewrite Hlisted.
    + unfold get_list. by destruct (sort self) as [? ?].
Qed.

Lemma get_list_rows_bounds_witness :
  rows stored_order
    (get_list stored_order (admin_of Post None None (Some 7) false) twenty_five true).2
  = []
  ∧ (get_list stored_order (admin_of Post None None (Some 7) false) twenty_five true).1
    = 25.
Proof.
  destruct (get_list_rows_bounds stored_order
              (admin_of Post None None (Some 7) false) twenty_five true)
    as (_ & _ & Hpast); [simpl; lia|done|].
  apply (Hpast 7); [reflexivity|]. vm_compute. lia.
Defined.

(** ** Fetching and deleting by primary key *)

Section delete_facts.
Context {oid : Type} `{EqDecision oid}.
Variable ObjectId : string → result oid.
Implicit Types (collection : list (@document oid)) (ids : list oid)
  (pks : list string).

Lemma collect_app {A B} (g : A → result B) (xs ys : list A) :
  collect g (xs ++ ys)
  = bs ← collect g xs; cs ← collect g ys; Ok (bs ++ cs).
Proof.
  induction xs as [|x xs IH]; simpl.
  - by destruct (collect g ys).
  - destruct (g x) as [b|e]; simpl; [|done]. rewrite IH.
    destruct (collect g xs) as [bs|e]; simpl; [|done].
    by destruct (collect g ys).
Qed.

Lemma collect_raises {A B} (g : A → result B) (xs : list A) e :
  collect g xs = Raise e ↔
  ∃ l1 x l2, xs = l1 ++ x :: l2 ∧ Forall (λ y, ∃ b, g y = Ok b) l1 ∧ g x = Raise e.
Proof.
  induction xs as [|x xs IH]; simpl.
  - split; [done|]. intros (l1 & y & l2 & Hl & _). by destruct l1.
  - destruct (g x) as [b|e'] eqn:Hx; simpl.
    + assert (Htail : (ys ← collect g xs; Ok (b :: ys)) = Raise e
                      ↔ collect g xs = Raise e).
      { destruct (collect g xs); simpl; split; congruence. }
      rewrite Htail, IH. split.
      * intros (l1 & y & l2 & -> & Hok & Hy).
        exists (x :: l1), y, l2. split; [done|]. split; [|done].
        constructor; [by exists b|done].
      * intros (l1 & y & l2 & Hl & Hok & Hy).
        destruct l1 as [|z l1]; simpl in Hl; injection Hl as <- ->; [congruence|].
        apply Forall_cons in Hok as [_ Hok]. by exists l1, y, l2.
    + split.
      * intros [= ->]. exists [], x, xs. by repeat split.
      * intros (l1 & y & l2 & Hl & Hok & Hy).
        destruct l1 as [|z l1]; simpl in Hl; injection Hl as <- ->; [congruence|].
        apply Forall_cons in Hok as [[b Hb] _]. congruence.
Qed.

Lemma get_objects_filter pks ids collection :
  collect ObjectId pks = Ok ids →
  get_objects ObjectId pks collection
  = Ok (filter (λ d, doc_id d ∈ ids) collection).
Proof.
  intros Hids. unfold get_objects. rewrite Hids. simpl.
  by rewrite in_bulk_values.
Qed.

Lemma delete_models_filter pks ids collection :
  collect ObjectId pks = Ok ids →
  delete_models ObjectId pks collection
  = Ok (true, filter (λ d, doc_id d ∉ ids) collection).
Proof.
  intros Hids. unfold delete_models. rewrite (get_objects_filter _ ids) by done.
  simpl. rewrite delete_each. do 2 f_equal.
  apply filter_iff_in. intros d Hd. split.
  - intros Hnot Hin. apply Hnot. apply list_elem_of_fmap.
    exists d. split; [done|]. by apply list_elem_of_filter.
  - intros Hnot (d' & Heq & Hd')%list_elem_of_fmap.
    apply list_elem_of_filter in Hd' as [Hin _]. apply Hnot. by rewrite Heq.
Qed.

(** X16. [get_objects] depends on the set of the primary keys only, not
    on their order or repetitions; it returns each stored document whose
    identifier is among them, once (identifiers distinct), and no other. *)
Theorem get_objects_as_set pks pks' ids ids' collection :
  collect ObjectId pks = Ok ids → collect ObjectId pks' = Ok ids' →
  (∀ i, i ∈ ids ↔ i ∈ ids') →
  NoDup (doc_id <$> collection) →
  get_objects ObjectId pks collection = get_objects ObjectId pks' collection
  ∧ ∃ objs, get_objects ObjectId pks collection = Ok objs
            ∧ NoDup (doc_id <$> objs)
            ∧ (∀ d, d ∈ objs ↔ d ∈ collection ∧ doc_id d ∈ ids)
            ∧ (length objs ≤ length collection)%nat.
Proof.
  intros Hids Hids' Hsame Hnd.
  rewrite (get_objects_filter pks ids), (get_objects_filter pks' ids') by done.
  split.
  - f_equal. apply list_filter_iff. intros d. apply Hsame.
  - eexists. split; [done|]. split; [|split].
    + eapply sublist_NoDup; [exact Hnd|]. apply fmap_sublist, sublist_filter.
    + intros d. rewrite list_elem_of_filter. tauto.
    + apply sublist_length, sublist_filter.
Qed.

(** X17. Deleting two batches of primary keys one after the other leaves
    the collection that deleting both at once leaves; deleting a batch a
    second time changes nothing and still returns [True]; what is left is a
    sublist of the collection, with identifiers still distinct. *)
Theorem delete_models_compose pks1 pks2 ids1 ids2 collection :
  collect ObjectId pks1 = Ok ids1 → collect ObjectId pks2 = Ok ids2 →
  ∃ c1 c2,
    delete_models ObjectId pks1 collection = Ok (true, c1)
    ∧ delete_models ObjectId pks2 c1 = Ok (true, c2)
    ∧ delete_models ObjectId (pks1 ++ pks2) collection = Ok (true, c2)
    ∧ delete_models ObjectId pks1 c1 = Ok (true, c1)
    ∧ c1 `sublist_of` collection
    ∧ (NoDup (doc_id <$> collection) → NoDup (doc_id <$> c1)).
Proof.
  intros H1 H2.
  assert (H12 : collect ObjectId (pks1 ++ pks2) = Ok (ids1 ++ ids2)).
  { by rewrite collect_app, H1, H2. }
  exists (filter (λ d, doc_id d ∉ ids1) collection),
         (filter (λ d, doc_id d ∉ ids2) (filter (λ d, doc_id d ∉ ids1) collection)).
  rewrite !(delete_models_filter pks1 ids1), (delete_models_filter pks2 ids2),
    (delete_models_filter (pks1 ++ pks2) (ids1 ++ ids2)) by done.
  split; [done|]. split; [done|]. split; [|split; [|split]].
  - do 2 f_equal. rewrite list_filter_filter. apply list_filter_iff.
    intros d. rewrite not_elem_of_app. tauto.
  - do 2 f_equal. rewrite list_filter_filter. apply list_filter_iff.
    intros d. tauto.
  - apply sublist_filter.
  - intros Hnd. eapply sublist_NoDup; [exact Hnd|].
    apply fmap_sublist, sublist_filter.
Qed.

(** X18. [delete_models] raises exactly when [ObjectId] rejects one of
    the primary keys, and then with the exception of the first key it
    rejects; whether it raises does not depend on what the collection
    holds. *)
Theorem delete_models_raises pks collection e :
  delete_models ObjectId pks collection = Raise e ↔
  ∃ l1 pk l2, pks = l1 ++ pk :: l2
              ∧ Forall (λ p, ∃ i, ObjectId p = Ok i) l1
              ∧ ObjectId pk = Raise e.
Proof.
  rewrite <- collect_raises. unfold delete_models, get_objects.
  destruct (collect ObjectId pks) as [ids|e']; simpl; split; congruence.
Qed.

Lemma filter_none {A} (P : A → Prop) `{!∀ x, Decision (P x)} (l : list A) :
  (∀ x, x ∈ l → ¬ P x) → filter P l = [].
Proof.
  induction l as [|x l IH]; intros Hnone; [done|].
  rewrite filter_cons_False by (apply Hnone, elem_of_cons; by left).
  apply IH. intros y Hy. apply Hnone, elem_of_cons. by right.
Qed.

Lemma own_id_filters (instance : @document oid) collection :
  NoDup (doc_id <$> collection) → instance ∈ collection →
  filter (λ d, doc_id d ∈ [doc_id instance]) collection = [instance]
  ∧ length collection
    = S (length (filter (λ d, doc_id d ∉ [doc_id instance]) collection)).
Proof.
  induction collection as [|x c IH]; [by intros _ ?%elem_of_nil|].
  rewrite fmap_cons. intros [Hx Hnd]%NoDup_cons [Heq|Hin]%elem_of_cons.
  - subst x.
    assert (Hother : ∀ d, d ∈ c → doc_id d ≠ doc_id instance).
    { intros d Hd Heq. apply Hx. rewrite <- Heq. by apply list_elem_of_fmap_2. }
    rewrite filter_cons_True by (by apply list_elem_of_singleton).
    rewrite filter_cons_False
      by (intros Hn; apply Hn; by apply list_elem_of_singleton).
    rewrite filter_none.
    2:{ intros d Hd ?%list_elem_of_singleton. by apply (Hother d). }
    rewrite (filter_iff_in _ (λ _, True) c).
    2:{ intros d Hd. split; [done|]. intros _ ?%list_elem_of_singleton.
        by apply (Hother d). }
    by rewrite filter_all.
  - destruct (IH Hnd Hin) as [Hf Hl].
    assert (Hne : doc_id x ≠ doc_id instance).
    { intros Heq. apply Hx. rewrite Heq. by apply list_elem_of_fmap_2. }
    rewrite filter_cons_False by (by intros ?%list_elem_of_singleton).
    rewrite filter_cons_True by (by intros ?%list_elem_of_singleton).
    split; [done|]. simpl. by rewrite Hl.
Qed.

Variable oid_str : oid → string.

(** X19. The primary key [get_pk] renders leads back to the instance:
    when [ObjectId] reads [str] of an identifier back as that identifier,
    [get_objects] on [get_pk] of a stored instance returns that instance
    alone, and [delete_models] on it removes that instance and no other
    (identifiers distinct). *)
Theorem get_pk_round_trip (instance : @document oid) collection :
  ObjectId (get_pk oid_str instance) = Ok (doc_id instance) →
  NoDup (doc_id <$> collection) → instance ∈ collection →
  get_objects ObjectId [get_pk oid_str instance] collection = Ok [instance]
  ∧ ∃ rest, delete_models ObjectId [get_pk oid_str instance] collection
            = Ok (true, rest)
            ∧ (instance ∉ rest)
            ∧ (∀ d, d ∈ collection → doc_id d ≠ doc_id instance → d ∈ rest)
            ∧ length collection = S (length rest).
Proof.
  intros Hpk Hnd Hin.
  assert (Hids : collect ObjectId [get_pk oid_str instance] = Ok [doc_id instance]).
  { simpl. by rewrite Hpk. }
  rewrite (get_objects_filter _ _ _ Hids), (delete_models_filter _ _ _ Hids).
  pose proof (own_id_filters instance) as Hone.
  destruct (Hone collection Hnd Hin) as [Hfetch Hlen].
  split; [by rewrite Hfetch|].
  eexists. split; [done|]. split; [|split; [|done]].
  - intros [Hnot _]%list_elem_of_filter. apply Hnot. by apply list_elem_of_singleton.
  - intros d Hd Hne. apply list_elem_of_filter. split; [|done].
    by intros ?%list_elem_of_singleton.
Qed.

End delete_facts.

Lemma get_objects_as_set_witness :
  get_objects number_id ["3"; "99"; "3"] twenty_five
  = get_objects number_id ["99"; "3"] twenty_five.
Proof.
  apply (get_objects_as_set number_id ["3"; "99"; "3"] ["99"; "3"]
           [3; 99; 3] [99; 3] twenty_five eq_refl eq_refl).
  - intros i. rewrite !elem_of_cons, !elem_of_nil. tauto.
  - compute_done.
Defined.

Lemma delete_models_compose_witness :
  ∃ c1 c2,
    delete_models number_id ["3"] twenty_five = Ok (true, c1)
    ∧ delete_models number_id ["99"; "4"] c1 = Ok (true, c2)
    ∧ delete_models number_id ["3"; "99"; "4"] twenty_five = Ok (true, c2)
    ∧ delete_models number_id ["3"] c1 = Ok (true, c1).
Proof.
  destruct (delete_models_compose number_id ["3"] ["99"; "4"] [3] [99; 4]
              twenty_five eq_refl eq_refl)
    as (c1 & c2 & H1 & H2 & H12 & Hagain & _).
  by exists c1, c2.
Defined.

Lemma delete_models_raises_witness :
  delete_models number_id ["3"; "x7"; "4"] twenty_five = Raise InvalidId.
Proof.
  apply delete_models_raises. exists ["3"], "x7", ["4"].
  split; [done|]. split; [|reflexivity].
  repeat constructor. by exists 3.
Defined.

Lemma get_pk_round_trip_witness :
  get_objects number_id
    [get_pk (λ n, NilZero.string_of_uint (Nat.to_uint n)) (doc 12)] twenty_five
  = Ok [doc 12].
Proof.
  apply (get_pk_round_trip number_id
           (λ n, NilZero.string_of_uint (Nat.to_uint n)) (doc 12) twenty_five).
  - reflexivity.
  - compute_done.
  - apply list_elem_of_fmap. exists 12. split; [done|]. compute_done.
Defined.

(** ** The example's login and registration *)

Section auth_facts.
Import Auth.
Implicit Types (users : list User).

Lemma get_user_Some users form user :
  get_user users form = Some user →
  user ∈ users ∧ login user = login_data form.
Proof.
  unfold get_user, filter_by_login. intros Hhead.
  apply head_Some in Hhead as [rest Hfilter].
  assert (Hin : user ∈ filter (λ u, login u = login_data form) users).
  { rewrite Hfilter. apply elem_of_cons. by left. }
  by apply list_elem_of_filter in Hin as [? ?].
Qed.

Lemma get_user_None users form :
  get_user users form = None ↔ login_data form ∉ login <$> users.
Proof.
  unfold get_user, filter_by_login. rewrite head_None. split.
  - intros Hnil (u & Heq & Hu)%list_elem_of_fmap.
    assert (Hin : u ∈ filter (λ u, login u = login_data form) users).
    { by apply list_elem_of_filter. }
    rewrite Hnil in Hin. by apply elem_of_nil in Hin.
  - intros Hnot. apply filter_none. intros u Hu Heq. apply Hnot.
    rewrite <- Heq. by apply list_elem_of_fmap_2.
Qed.

Lemma unique_login users u v :
  NoDup (login <$> users) → u ∈ users → v ∈ users → login u = login v → u = v.
Proof.
  induction users as [|w users IH]; [by intros _ ?%elem_of_nil|].
  rewrite fmap_cons. intros [Hw Hnd]%NoDup_cons.
  intros [->|Hu]%elem_of_cons [->|Hv]%elem_of_cons Heq; [done| | |by apply IH].
  - destruct Hw. rewrite Heq. by apply list_elem_of_fmap_2.
  - destruct Hw. rewrite <- Heq. by apply list_elem_of_fmap_2.
Qed.

Lemma login_accepts users form user :
  NoDup (login <$> users) → user ∈ users →
  login user = login_data form → password user = password_data form →
  LoginForm_validate_login users form = Valid.
Proof.
  intros Hnd Hin Hlogin Hpassword. unfold LoginForm_validate_login.
  destruct (get_user users form) as [first|] eqn:Hfirst.
  - apply get_user_Some in Hfirst as [Hin' Hlogin'].
    rewrite (unique_login users first user) by (done || congruence).
    by rewrite decide_False by (by intros ?).
  - apply get_user_None in Hfirst. destruct Hfirst.
    rewrite <- Hlogin. by apply list_elem_of_fmap_2.
Qed.

(** X20. With unique logins, [LoginForm.validate_login] passes exactly
    when a user has the form's login and password, fails with 'Invalid user'
    exactly when no user has the login, and with 'Invalid password' exactly
    when the user with that login has another password. *)
Theorem login_validates_iff users form :
  NoDup (login <$> users) →
  (LoginForm_validate_login users form = Valid
   ↔ ∃ user, user ∈ users ∧ login user = login_data form
             ∧ password user = password_data form)
  ∧ (LoginForm_validate_login users form = ValidationError "Invalid user"
     ↔ login_data form ∉ login <$> users)
  ∧ (LoginForm_validate_login users form = ValidationError "Invalid password"
     ↔ ∃ user, user ∈ users ∧ login user = login_data form
               ∧ password user ≠ password_data form).
Proof.
  intros Hnd. unfold LoginForm_validate_login.
  destruct (get_user users form) as [user|] eqn:Huser.
  - apply get_user_Some in Huser as [Hin Hlogin].
    assert (Hknown : login_data form ∈ login <$> users).
    { rewrite <- Hlogin. by apply list_elem_of_fmap_2. }
    assert (Hsame : ∀ u, u ∈ users → login u = login_data form → u = user).
    { intros u Hu Hl. apply (unique_login users); [done..|congruence]. }
    destruct (decide (password user ≠ password_data form)) as [Hne|Heq].
    + split; [|split].
      * split; [done|]. intros (u & Hu & Hl & Hp).
        rewrite (Hsame u Hu Hl) in Hp. done.
      * split; [done|]. intros Hnot. by destruct Hnot.
      * split; [|done]. intros _. by exists user.
    + apply dec_stable in Heq. split; [|split].
      * split; [|done]. intros _. by exists user.
      * split; [done|]. intros Hnot. by destruct Hnot.
      * split; [done|]. intros (u & Hu & Hl & Hp).
        rewrite (Hsame u Hu Hl) in Hp. done.
  - apply get_user_None in Huser. split; [|split].
    + split; [done|]. intros (u & Hu & Hl & _). destruct Huser.
      rewrite <- Hl. by apply list_elem_of_fmap_2.
    + done.
    + split; [done|]. intros (u & Hu & Hl & _). destruct Huser.
      rewrite <- Hl. by apply list_elem_of_fmap_2.
Qed.

Variable next_id : list User → Z.

(** X21. A registration that [RegistrationForm.validate_login] accepts is
    committed; afterwards logins are still unique, logging in with the
    registered login and password validates, registering the same login
    again is refused with 'Duplicate username', and the outcome of a login
    under any other name is what it was before. *)
Theorem register_then_login users form :
  NoDup (login <$> users) →
  RegistrationForm_validate_login users form = Valid →
  ∃ users',
    register_user next_id users form = Committed users'
    ∧ NoDup (login <$> users')
    ∧ LoginForm_validate_login users'
        {| login_data := reg_login form; password_data := reg_password form |}
      = Valid
    ∧ RegistrationForm_validate_login users' form
      = ValidationError "Duplicate username"
    ∧ (∀ other, login_data other ≠ reg_login form →
                LoginForm_validate_login users' other
                = LoginForm_validate_login users other).
Proof.
  intros Hnd Hvalid.
  assert (Hfree : reg_login form ∉ login <$> users).
  { unfold RegistrationForm_validate_login in Hvalid.
    destruct (decide _) as [|Hzero]; [done|].
    intros (u & Heq & Hu)%list_elem_of_fmap. apply Hzero.
    assert (Hin : u ∈ filter_by_login (reg_login form) users).
    { by apply list_elem_of_filter. }
    destruct (filter_by_login _ _); [by apply elem_of_nil in Hin|simpl; lia]. }
  unfold register_user, add_and_commit. cbv zeta.
  rewrite decide_False by done.
  eexists. split; [reflexivity|].
  cbn [login email password populate_obj].
  set (new := {| id := Some (next_id users); login := reg_login form;
                 email := reg_email form; password := reg_password form |}).
  assert (Hnd' : NoDup (login <$> users ++ [new])).
  { rewrite fmap_app. apply NoDup_app. split; [done|]. split.
    - intros l Hl ->%list_elem_of_singleton. done.
    - apply NoDup_singleton. }
  split; [exact Hnd'|]. split; [|split].
  - apply (login_accepts _ _ new Hnd'); [|done..].
    apply elem_of_app. right. by apply elem_of_cons; left.
  - unfold RegistrationForm_validate_login, filter_by_login.
    rewrite filter_app, length_app. rewrite filter_cons_True by done.
    rewrite decide_True; [done|]. simpl. lia.
  - intros other Hother. unfold LoginForm_validate_login, get_user, filter_by_login.
    rewrite filter_app. rewrite (filter_cons_False _ new) by (simpl; congruence).
    by rewrite filter_nil, app_nil_r.
Qed.

(** X22. [RegistrationForm.validate_login] accepts exactly the logins
    that the unique constraint on [User.login] lets [register_view]
    commit. *)
Theorem registration_validator_matches_constraint users form :
  RegistrationForm_validate_login users form = Valid
  ↔ ∃ users', register_user next_id users form = Committed users'.
Proof.
  unfold RegistrationForm_validate_login, register_user, add_and_commit.
  cbv zeta. cbn [login populate_obj].
  assert (Htaken : 0 < length (filter_by_login (reg_login form) users)
                   ↔ reg_login form ∈ login <$> users).
  { split.
    - intros Hpos. destruct (filter_by_login _ _) as [|u rest] eqn:Hf;
        [simpl in Hpos; lia|].
      assert (Hu : u ∈ filter_by_login (reg_login form) users).
      { rewrite Hf. apply elem_of_cons. by left. }
      apply list_elem_of_filter in Hu as [<- Hu]. by apply list_elem_of_fmap_2.
    - intros (u & Heq & Hu)%list_elem_of_fmap.
      assert (Hin : u ∈ filter_by_login (reg_login form) users).
      { by apply list_elem_of_filter. }
      destruct (filter_by_login _ _); [by apply elem_of_nil in Hin|simpl; lia]. }
  destruct (decide (0 < _)) as [Hpos|Hzero].
  - rewrite decide_True by (by apply Htaken). split; [done|]. by intros [? [=]].
  - rewrite decide_False by (by rewrite <- Htaken). split; [|done].
    intros _. by eexists.
Qed.

End auth_facts.

Lemma login_validates_iff_witness :
  Auth.LoginForm_validate_login
    [ {| Auth.id := Some 1%Z; Auth.login := "ann"; Auth.email := "";
         Auth.password := "s3cret" |} ]
    {| Auth.login_data := "ann"; Auth.password_data := "s3cret" |}
  = Auth.Valid.
Proof.
  apply (login_validates_iff
           [ {| Auth.id := Some 1%Z; Auth.login := "ann"; Auth.email := "";
                Auth.password := "s3cret" |} ]
           {| Auth.login_data := "ann"; Auth.password_data := "s3cret" |}).
  - compute_done.
  - eexists. split; [apply elem_of_cons; by left|]. by split.
Defined.

Lemma register_then_login_witness :
  ∃ users',
    Auth.register_user (λ users, Z.of_nat (S (length users)))
      [ {| Auth.id := Some 1%Z; Auth.login := "ann"; Auth.email := "";
           Auth.password := "s3cret" |} ]
      {| Auth.reg_login := "bob"; Auth.reg_email := "bob@example.org";
         Auth.reg_password := "hunter2" |}
    = Auth.Committed users'
    ∧ Auth.LoginForm_validate_login users'
        {| Auth.login_data := "bob"; Auth.password_data := "hunter2" |}
      = Auth.Valid.
Proof.
  destruct (register_then_login (λ users, Z.of_nat (S (length users)))
              [ {| Auth.id := Some 1%Z; Auth.login := "ann"; Auth.email := "";
                   Auth.password := "s3cret" |} ]
              {| Auth.reg_login := "bob"; Auth.reg_email := "bob@example.org";
                 Auth.reg_password := "hunter2" |})
    as (users' & Hcommit & _ & Hlogin & _); [compute_done|reflexivity|].
  by exists users'.
Defined.
